(** * BooksAdmin: the book administration screen

    A shallow embedding of [frontend/src/Pages/BooksAdmin.tsx].

    The component owns seven pieces of React state and a handful of event
    handlers, three of which are [async] and talk to the REST backend through
    [fetch].  The embedding follows that shape:

    - the [useState] cells form the record [ScreenState];
    - a handler is a [Task]: a tree of state updates ([setX] calls), [await]ed
      requests and thrown errors, with [try]/[catch]/[finally] as combinators;
    - [exec] runs one handler to completion against a script of responses;
    - [step] is the event loop of the page: user events start handlers,
      responses of the backend resume the suspended ones, in any order. *)

From stdpp Require Import base strings list gmap.

Open Scope string_scope.

(** ** Data model *)

Definition API_URL : string := "http://localhost:3001/api".

Module Book.
Record t : Type := mk {
  _id : string;
  title : string;
  author : string;
  description : string;
  cover : string
}.
End Book.

(** A browser [File] picked in the file input: its name and its content. *)
Record File : Type := mkFile {
  file_name : string;
  file_content : string
}.

Module BookFormData.
Record t : Type := mk {
  title : string;
  author : string;
  description : string;
  cover : option File
}.
End BookFormData.

#[global] Instance Book_eq_dec : EqDecision Book.t.
Proof. solve_decision. Defined.

#[global] Instance File_eq_dec : EqDecision File.
Proof. solve_decision. Defined.

#[global] Instance BookFormData_eq_dec : EqDecision BookFormData.t.
Proof. solve_decision. Defined.

(** The seven [useState] cells of the component, in declaration order. *)
Record ScreenState : Type := mkScreen {
  books : list Book.t;
  isModalOpen : bool;
  isLoading : bool;
  error : option string;
  editingBook : option Book.t;
  formData : BookFormData.t;
  failedImages : gset string
}.

(** [{ title: '', author: '', description: '' }] *)
Definition emptyForm : BookFormData.t :=
  BookFormData.mk "" "" "" None.

(** The initial values passed to [useState]. *)
Definition initialState : ScreenState :=
  {| books := [];
     isModalOpen := false;
     isLoading := false;
     error := None;
     editingBook := None;
     formData := emptyForm;
     failedImages := ∅ |}.

(** *** State setters *)

Definition setBooks (v : list Book.t) (s : ScreenState) : ScreenState :=
  mkScreen v (isModalOpen s) (isLoading s) (error s) (editingBook s)
           (formData s) (failedImages s).

Definition setIsModalOpen (v : bool) (s : ScreenState) : ScreenState :=
  mkScreen (books s) v (isLoading s) (error s) (editingBook s)
           (formData s) (failedImages s).

Definition setIsLoading (v : bool) (s : ScreenState) : ScreenState :=
  mkScreen (books s) (isModalOpen s) v (error s) (editingBook s)
           (formData s) (failedImages s).

Definition setError (v : option string) (s : ScreenState) : ScreenState :=
  mkScreen (books s) (isModalOpen s) (isLoading s) v (editingBook s)
           (formData s) (failedImages s).

Definition setEditingBook (v : option Book.t) (s : ScreenState) : ScreenState :=
  mkScreen (books s) (isModalOpen s) (isLoading s) (error s) v
           (formData s) (failedImages s).

Definition setFormData (v : BookFormData.t) (s : ScreenState) : ScreenState :=
  mkScreen (books s) (isModalOpen s) (isLoading s) (error s) (editingBook s)
           v (failedImages s).

(** The functional form [setFailedImages(prev => ...)]. *)
Definition setFailedImages (f : gset string → gset string) (s : ScreenState)
  : ScreenState :=
  mkScreen (books s) (isModalOpen s) (isLoading s) (error s) (editingBook s)
           (formData s) (f (failedImages s)).

(** ** The network *)

Inductive Method : Type := GET | POST | PUT | DELETE.

(** One entry of a multipart [FormData] body. *)
Inductive FormValue : Type :=
| Text (value : string)
| Blob (file : File).

(** A multipart body: the entries in the order they were appended. *)
Definition FormData : Type := list (string * FormValue).

Definition FormData_new : FormData := [].

Definition FormData_append (fd : FormData) (name : string) (value : FormValue)
  : FormData :=
  (fd ++ [(name, value)])%list.

Record Request : Type := mkRequest {
  url : string;
  method : Method;
  body : option FormData
}.

#[global] Instance Method_eq_dec : EqDecision Method.
Proof. solve_decision. Defined.

#[global] Instance FormValue_eq_dec : EqDecision FormValue.
Proof. solve_decision. Defined.

#[global] Instance Request_eq_dec : EqDecision Request.
Proof. solve_decision. Defined.

(** What [response.json()] resolves to: the parsed collection, or a rejection
    carrying the parser's message. *)
Inductive Json : Type :=
| Malformed (reason : string)
| Parsed (data : list Book.t).

(** A resolved [fetch]: the [ok] flag of the status line and the body. *)
Record Response : Type := mkResponse {
  ok : bool;
  payload : Json
}.

(** What [await fetch(...)] does: the promise rejects (network unreachable),
    carrying the browser's message, or it resolves to a response. *)
Inductive FetchResult : Type :=
| Rejected (reason : string)
| Resolved (response : Response).

(** ** Handlers as tasks *)

(** A handler body.  [Throw] carries the message of the thrown [Error];
    [Update] is a call of a state setter; [Await] suspends the handler on a
    request until the backend answers. *)
Inductive Task (A : Type) : Type :=
| Ret (a : A)
| Throw (message : string)
| Update (f : ScreenState → ScreenState) (k : Task A)
| Await (req : Request) (k : FetchResult → Task A).

Arguments Ret {A} a.
Arguments Throw {A} message.
Arguments Update {A} f k.
Arguments Await {A} req k.

Fixpoint bind {A B : Type} (t : Task A) (f : A → Task B) : Task B :=
  match t with
  | Ret a => f a
  | Throw m => Throw m
  | Update g k => Update g (bind k f)
  | Await req k => Await req (λ r, bind (k r) f)
  end.

(** [try { t } catch (err) { h err }] *)
Fixpoint try_catch {A : Type} (t : Task A) (h : string → Task A) : Task A :=
  match t with
  | Ret a => Ret a
  | Throw m => h m
  | Update g k => Update g (try_catch k h)
  | Await req k => Await req (λ r, try_catch (k r) h)
  end.

(** [try { t } finally { fin }] *)
Fixpoint finally {A : Type} (t : Task A) (fin : Task unit) : Task A :=
  match t with
  | Ret a => bind fin (λ _, Ret a)
  | Throw m => bind fin (λ _, Throw m)
  | Update g k => Update g (finally k fin)
  | Await req k => Await req (λ r, finally (k r) fin)
  end.

(** Tasks compose with stdpp's monadic notation: [x ← t; k] and [t;; k]. *)
#[global] Instance Task_ret : MRet Task := λ A a, Ret a.
#[global] Instance Task_bind : MBind Task := λ A B f t, bind t f.

(** A setter call as a task. *)
Definition set (f : ScreenState → ScreenState) : Task unit :=
  Update f (Ret tt).

Definition throw {A : Type} (message : string) : Task A := Throw message.

(** [await fetch(url, { method, body })]: a rejected promise is thrown at the
    [await]. *)
Definition fetch (req : Request) : Task Response :=
  Await req (λ r,
    match r with
    | Rejected reason => Throw reason
    | Resolved response => Ret response
    end).

(** [await response.json()] *)
Definition json (response : Response) : Task (list Book.t) :=
  match payload response with
  | Malformed reason => Throw reason
  | Parsed data => Ret data
  end.

(** ** The handlers of the component

    A handler closes over the state of the render it was created in: that
    snapshot is its argument [s].  The setters it calls act on the state
    current at the time of the call. *)

Definition fetchBooks : Task unit :=
  try_catch
    (response ← fetch (mkRequest (API_URL ++ "/books") GET None);
     if negb (ok response) then throw "Failed to fetch books" else
     data ← json response;
     set (setBooks data))
    (λ err, set (setError (Some "Failed to load books"))).

(** [{ ...formData, [name]: value }] for the [name] attribute of the input
    that fired.  The handler is wired to the inputs named title, author and
    description, and this is the assignment for those names.  No input of
    another name exists; for such a name the form is given back as it is,
    which is not what the spread would do for the name cover. *)
Definition with_field (name value : string) (fd : BookFormData.t)
  : BookFormData.t :=
  if decide (name = "title") then
    BookFormData.mk value (BookFormData.author fd)
                    (BookFormData.description fd) (BookFormData.cover fd)
  else if decide (name = "author") then
    BookFormData.mk (BookFormData.title fd) value
                    (BookFormData.description fd) (BookFormData.cover fd)
  else if decide (name = "description") then
    BookFormData.mk (BookFormData.title fd) (BookFormData.author fd)
                    value (BookFormData.cover fd)
  else fd.

Definition handleInputChange (name value : string) (s : ScreenState)
  : Task unit :=
  set (setFormData (with_field name value (formData s))).

(** [files] is [e.target.files], empty when nothing was selected. *)
Definition handleFileChange (files : list File) (s : ScreenState) : Task unit :=
  match files with
  | file :: _ =>
      set (setFormData
             (BookFormData.mk (BookFormData.title (formData s))
                              (BookFormData.author (formData s))
                              (BookFormData.description (formData s))
                              (Some file)))
  | [] => Ret tt
  end.

Definition resetForm : Task unit :=
  set (setFormData emptyForm);;
  set (setEditingBook None);;
  set (setError None).

Definition handleEdit (book : Book.t) : Task unit :=
  set (setEditingBook (Some book));;
  set (setFormData (BookFormData.mk (Book.title book) (Book.author book)
                                    (Book.description book) None));;
  set (setIsModalOpen true).

Definition handleSubmit (s : ScreenState) : Task unit :=
  set (setIsLoading true);;
  set (setError None);;
  let formDataToSend := FormData_new in
  let formDataToSend :=
    FormData_append formDataToSend "title"
                    (Text (BookFormData.title (formData s))) in
  let formDataToSend :=
    FormData_append formDataToSend "author"
                    (Text (BookFormData.author (formData s))) in
  let formDataToSend :=
    FormData_append formDataToSend "description"
                    (Text (BookFormData.description (formData s))) in
  let formDataToSend :=
    match BookFormData.cover (formData s) with
    | Some file => FormData_append formDataToSend "cover" (Blob file)
    | None => formDataToSend
    end in
  finally
    (try_catch
       (let url :=
          match editingBook s with
          | Some b => API_URL ++ "/books/" ++ Book._id b
          | None => API_URL ++ "/books"
          end in
        let method :=
          match editingBook s with
          | Some _ => PUT
          | None => POST
          end in
        response ← fetch (mkRequest url method (Some formDataToSend));
        if negb (ok response) then throw "Failed to save book" else
        fetchBooks;;
        set (setIsModalOpen false);;
        resetForm)
       (λ err, set (setError (Some "Failed to save book"))))
    (set (setIsLoading false)).

(** [confirmed] is the answer to [window.confirm]. *)
Definition handleDelete (bookId : string) (confirmed : bool) : Task unit :=
  if negb confirmed then Ret tt else
  try_catch
    (response ← fetch (mkRequest (API_URL ++ "/books/" ++ bookId) DELETE None);
     if negb (ok response) then throw "Failed to delete book" else
     fetchBooks)
    (λ err, set (setError (Some "Failed to delete book"))).

Definition handleImageError (bookId : string) : Task unit :=
  set (setFailedImages (λ prev, prev ∪ {[bookId]})).

(** The inline handlers of the JSX. *)

(** The Add New Book button: [() => setIsModalOpen(true)]. *)
Definition startCreate : Task unit :=
  set (setIsModalOpen true).

(** The dialog's [onOpenChange={setIsModalOpen}]. *)
Definition onOpenChange (open : bool) : Task unit :=
  set (setIsModalOpen open).

(** The Cancel button. *)
Definition cancel : Task unit :=
  set (setIsModalOpen false);;
  resetForm.

(** ** Rendering *)

Inductive CoverView : Type :=
| FallbackCover (title : string)
| img (src alt : string).

Record CardView : Type := mkCard {
  key : string;
  coverView : CoverView;
  cardTitle : string;
  cardDescription : string;
  cardContent : string
}.

Record View : Type := mkView {
  alert : option string;
  cards : list CardView;
  dialogOpen : bool;
  dialogTitle : string;
  titleInput : string;
  authorInput : string;
  descriptionInput : string;
  submitDisabled : bool;
  submitLabel : string
}.

Definition renderCover (failed : gset string) (book : Book.t) : CoverView :=
  if decide (Book._id book ∈ failed)
  then FallbackCover (Book.title book)
  else img (API_URL ++ Book.cover book) (Book.title book).

Definition renderCard (failed : gset string) (book : Book.t) : CardView :=
  {| key := Book._id book;
     coverView := renderCover failed book;
     cardTitle := Book.title book;
     cardDescription := "by " ++ Book.author book;
     cardContent := Book.description book |}.

Definition render (s : ScreenState) : View :=
  {| alert := error s;
     cards := map (renderCard (failedImages s)) (books s);
     dialogOpen := isModalOpen s;
     dialogTitle := match editingBook s with
                    | Some _ => "Edit Book"
                    | None => "Add New Book"
                    end;
     titleInput := BookFormData.title (formData s);
     authorInput := BookFormData.author (formData s);
     descriptionInput := BookFormData.description (formData s);
     submitDisabled := isLoading s;
     submitLabel := if isLoading s then "Saving..." else "Save Book" |}.

(** The URLs the browser fetches for the [img] elements of a view. *)
Definition imageRequests (v : View) : list string :=
  omap (λ c, match coverView c with
             | img src _ => Some src
             | FallbackCover _ => None
             end) (cards v).

(** ** Running one handler to completion *)

Inductive Status : Type :=
| Finished
| Uncaught (message : string)
| Pending.

Record Run : Type := mkRun {
  final : ScreenState;
  requests : list Request;
  status : Status
}.

(** [exec t script s] runs [t] from state [s]; the i-th awaited request is
    answered by the i-th entry of [script].  A handler left without an
    answer stays suspended ([Pending]). *)
Fixpoint exec {A : Type} (t : Task A) (script : list FetchResult)
    (s : ScreenState) : Run :=
  match t with
  | Ret _ => mkRun s [] Finished
  | Throw m => mkRun s [] (Uncaught m)
  | Update f k => exec k script (f s)
  | Await req k =>
      match script with
      | [] => mkRun s [req] Pending
      | r :: script' =>
          let out := exec (k r) script' s in
          mkRun (final out) (req :: requests out) (status out)
      end
  end.

(** ** The page as an event loop *)

Inductive Event : Type :=
| ClickAddNewBook
| ClickEdit (book : Book.t)
| ClickDelete (bookId : string) (confirmed : bool)
| ImageError (bookId : string)
| InputChange (name value : string)
| FileChange (files : list File)
| DialogOpenChange (open : bool)
| ClickCancel
| SubmitForm.

#[global] Instance Event_eq_dec : EqDecision Event.
Proof. solve_decision. Defined.

(** The handler wired to each event, closed over the current render. *)
Definition handler (e : Event) (s : ScreenState) : Task unit :=
  match e with
  | ClickAddNewBook => startCreate
  | ClickEdit book => handleEdit book
  | ClickDelete bookId confirmed => handleDelete bookId confirmed
  | ImageError bookId => handleImageError bookId
  | InputChange name value => handleInputChange name value s
  | FileChange files => handleFileChange files s
  | DialogOpenChange open => onOpenChange open
  | ClickCancel => cancel
  | SubmitForm => handleSubmit s
  end.

(** The form is submitted through its submit button, which is rendered
    [disabled={isLoading}].  The other events are left unconstrained here:
    the event loop admits more traces than the page, which is sound for what
    holds in every reachable state.  What the rendered page can deliver is
    [offered], below. *)
Definition enabled (e : Event) (s : ScreenState) : bool :=
  match e with
  | SubmitForm => negb (submitDisabled (render s))
  | _ => true
  end.

(** Who started a suspended handler: the mount effect or a user event. *)
Inductive Origin : Type :=
| Mount
| FromEvent (e : Event).

#[global] Instance Origin_eq_dec : EqDecision Origin.
Proof. solve_decision. Defined.

(** A handler suspended at an [await]. *)
Record Suspended : Type := mkSuspended {
  origin : Origin;
  awaiting : Request;
  resume : FetchResult → Task unit
}.

Record Page : Type := mkPage {
  screen : ScreenState;
  suspended : list Suspended;
  sent : list Request
}.

(** Run a task up to its next [await].  An error that escapes an [async]
    handler is an unhandled rejection: the state stays as it is. *)
Fixpoint settle (o : Origin) (t : Task unit) (p : Page) : Page :=
  match t with
  | Ret _ => p
  | Throw _ => p
  | Update f k => settle o k (mkPage (f (screen p)) (suspended p) (sent p))
  | Await req k =>
      mkPage (screen p)
             (suspended p ++ [mkSuspended o req k])
             (sent p ++ [req])
  end.

Inductive Action : Type :=
| User (e : Event)
| Answer (i : nat) (r : FetchResult).

Definition step (a : Action) (p : Page) : option Page :=
  match a with
  | User e =>
      if enabled e (screen p)
      then Some (settle (FromEvent e) (handler e (screen p)) p)
      else None
  | Answer i r =>
      match suspended p !! i with
      | Some t =>
          Some (settle (origin t) (resume t r)
                       (mkPage (screen p) (delete i (suspended p)) (sent p)))
      | None => None
      end
  end.

(** [useEffect(() => { fetchBooks(); }, [])] *)
Definition mount : Page :=
  settle Mount fetchBooks (mkPage initialState [] []).

Fixpoint run (actions : list Action) (p : Page) : option Page :=
  match actions with
  | [] => Some p
  | a :: actions' =>
      match step a p with
      | Some p' => run actions' p'
      | None => None
      end
  end.

Inductive reachable : Page → Prop :=
| reachable_mount : reachable mount
| reachable_step a p p' :
    reachable p → step a p = Some p' → reachable p'.

(** ** Vocabulary of the statements *)

(** [GET /api/books], the request of [fetchBooks]. *)
Definition loadRequest : Request :=
  mkRequest (API_URL ++ "/books") GET None.

(** The record of the running example: one book, as the list endpoint
    returns it. *)
Definition dune : Book.t :=
  Book.mk "1" "Dune" "Herbert" "..." "/covers/1.jpg".

(** The messages the component passes to [setError]. *)
Definition staticMessages : list string :=
  ["Failed to load books"; "Failed to save book"; "Failed to delete book"].

Definition allowedError (s : ScreenState) : Prop :=
  match error s with
  | None => True
  | Some m => m ∈ staticMessages
  end.

(** Every setter call of a task, on every path through it, satisfies [P]. *)
Fixpoint updates_satisfy {A : Type} (P : (ScreenState → ScreenState) → Prop)
    (t : Task A) : Prop :=
  match t with
  | Ret _ => True
  | Throw _ => True
  | Update f k => P f ∧ updates_satisfy P k
  | Await _ k => ∀ r, updates_satisfy P (k r)
  end.

(** A setter call that maintains [Inv]. *)
Definition keeps (Inv : ScreenState → Prop) (f : ScreenState → ScreenState)
  : Prop :=
  ∀ s, Inv s → Inv (f s).

(** Every suspended handler of the page, however it is answered, only makes
    setter calls that satisfy [P]. *)
Definition suspended_satisfy (P : (ScreenState → ScreenState) → Prop)
    (p : Page) : Prop :=
  Forall (λ t, ∀ r, updates_satisfy P (resume t r)) (suspended p).

(** A setter call that leaves the in-flight flag alone. *)
Definition frames_loading (f : ScreenState → ScreenState) : Prop :=
  ∀ s, isLoading (f s) = isLoading s.

(** [tracks_loading b t]: started while the in-flight flag is [b], the task
    [t] only suspends while the flag is set and only ends with the flag
    cleared. *)
Fixpoint tracks_loading {A : Type} (b : bool) (t : Task A) : Prop :=
  match t with
  | Ret _ => b = false
  | Throw _ => b = false
  | Update f k =>
      ∃ b', (∀ s, isLoading s = b → isLoading (f s) = b') ∧ tracks_loading b' k
  | Await _ k => b = true ∧ ∀ r, tracks_loading true (k r)
  end.

Definition isSubmit (t : Suspended) : Prop :=
  origin t = FromEvent SubmitForm.

#[global] Instance isSubmit_dec t : Decision (isSubmit t).
Proof. unfold isSubmit. apply _. Defined.

(** The number of submissions of the form that are waiting for the backend. *)
Definition submitsInFlight (p : Page) : nat :=
  length (filter isSubmit (suspended p)).

(** The event-loop invariant behind the submit guard. *)
Definition submitGuard (p : Page) : Prop :=
  submitsInFlight p = (if isLoading (screen p) then 1 else 0)
  ∧ Forall (λ t, if decide (isSubmit t)
                 then ∀ r, tracks_loading true (resume t r)
                 else ∀ r, updates_satisfy frames_loading (resume t r))
           (suspended p).

(** *** Further vocabulary *)

(** The value an input named [name] holds after the changes [edits], typed
    in that order, when it held [old] before. *)
Definition last_typed (name : string) (edits : list (string * string))
    (old : string) : string :=
  foldl (λ acc e, if decide (e.1 = name) then e.2 else acc) old edits.

(** The four request shapes of the REST surface the component consumes. *)
Definition restRequest (r : Request) : Prop :=
  match method r with
  | GET => url r = API_URL ++ "/books" ∧ body r = None
  | POST =>
      url r = API_URL ++ "/books"
      ∧ ∃ fd, body r = Some fd
              ∧ (fd.*1 = ["title"; "author"; "description"]
                 ∨ fd.*1 = ["title"; "author"; "description"; "cover"])
  | PUT =>
      (∃ id, url r = API_URL ++ "/books/" ++ id)
      ∧ ∃ fd, body r = Some fd
              ∧ (fd.*1 = ["title"; "author"; "description"]
                 ∨ fd.*1 = ["title"; "author"; "description"; "cover"])
  | DELETE => (∃ id, url r = API_URL ++ "/books/" ++ id) ∧ body r = None
  end.

(** Every request of a task, on every path through it, satisfies [Q]. *)
Fixpoint requests_satisfy {A : Type} (Q : Request → Prop) (t : Task A)
  : Prop :=
  match t with
  | Ret _ => True
  | Throw _ => True
  | Update _ k => requests_satisfy Q k
  | Await req k => Q req ∧ ∀ r, requests_satisfy Q (k r)
  end.

(** Every setter call a task makes after its first [await] satisfies [P]. *)
Fixpoint after_await {A : Type} (P : (ScreenState → ScreenState) → Prop)
    (t : Task A) : Prop :=
  match t with
  | Ret _ => True
  | Throw _ => True
  | Update _ k => after_await P k
  | Await _ k => ∀ r, updates_satisfy P (k r)
  end.

(** A setter call that leaves the dialog alone: the modal flag, the
    in-flight flag, the edit target and the form. *)
Definition frames_dialog (f : ScreenState → ScreenState) : Prop :=
  ∀ s, isModalOpen (f s) = isModalOpen s
       ∧ isLoading (f s) = isLoading s
       ∧ editingBook (f s) = editingBook s
       ∧ formData (f s) = formData s.

(** The suspended handlers that were not started by a submission only make
    setter calls that satisfy [P]. *)
Definition background_satisfy (P : (ScreenState → ScreenState) → Prop)
    (p : Page) : Prop :=
  Forall (λ t, ¬ isSubmit t → ∀ r, updates_satisfy P (resume t r))
         (suspended p).

(** The requests a page has sent and will send all satisfy [Q]. *)
Definition traffic_satisfies (Q : Request → Prop) (p : Page) : Prop :=
  Forall Q (sent p)
  ∧ Forall (λ t, ∀ r, requests_satisfy Q (resume t r)) (suspended p).

(** *** What the rendered page offers

    The event loop above lets every user event fire in every state, save for
    the submission.  The JSX is more selective; [offered] reads off it which
    events the rendered page can deliver.  The dialog's content, that is the
    form with its inputs, the Cancel button and the submit button, is
    mounted while the dialog is open. *)

(** The [name] attributes of the inputs wired to [handleInputChange]. *)
Definition formInputs : list string := ["title"; "author"; "description"].

Definition offered (e : Event) (s : ScreenState) : bool :=
  match e with
  | ClickAddNewBook => true
  | ClickEdit book => bool_decide (book ∈ books s)
  | ClickDelete bookId _ => bool_decide (bookId ∈ Book._id <$> books s)
  | ImageError bookId =>
      bool_decide (bookId ∈ Book._id <$> books s)
      && bool_decide (bookId ∉ failedImages s)
  | InputChange name _ => isModalOpen s && bool_decide (name ∈ formInputs)
  | FileChange _ => isModalOpen s
  | DialogOpenChange open => isModalOpen s && negb open
  | ClickCancel => isModalOpen s
  | SubmitForm =>
      isModalOpen s
      && negb (submitDisabled (render s))
      && negb (bool_decide (titleInput (render s) = ""))
      && negb (bool_decide (authorInput (render s) = ""))
      && negb (bool_decide (descriptionInput (render s) = ""))
  end.

(** A step of the page in which a user event fires only if the rendered page
    offers it. *)
Definition step_offered (a : Action) (p : Page) : option Page :=
  match a with
  | User e => if offered e (screen p) then step a p else None
  | Answer _ _ => step a p
  end.

Fixpoint run_offered (actions : list Action) (p : Page) : option Page :=
  match actions with
  | [] => Some p
  | a :: actions' =>
      match step_offered a p with
      | Some p' => run_offered actions' p'
      | None => None
      end
  end.

(** ** Running a handler: basic facts *)

Lemma exec_update {A : Type} (f : ScreenState → ScreenState) (k : Task A)
    script s :
  exec (Update f k) script s = exec k script (f s).
Proof. reflexivity. Qed.

(** The three ways a load can fail, and the one way it succeeds, are all
    there is to a [FetchResult]. *)
Lemma FetchResult_cases (r : FetchResult) :
  (∃ reason, r = Rejected reason)
  ∨ (∃ json, r = Resolved (mkResponse false json))
  ∨ (∃ reason, r = Resolved (mkResponse true (Malformed reason)))
  ∨ (∃ data, r = Resolved (mkResponse true (Parsed data))).
Proof.
  destruct r as [reason | [[] [reason | data]]]; eauto 6.
Qed.

(** A load answered by [r] finishes, whatever [r] is, and never throws. *)
Lemma fetchBooks_finishes r script s :
  status (exec fetchBooks (r :: script) s) = Finished
  ∧ requests (exec fetchBooks (r :: script) s) = [loadRequest].
Proof.
  destruct r as [reason | [[] [reason | data]]]; split; reflexivity.
Qed.

(** A load changes nothing but the list and the error message. *)
Lemma fetchBooks_frame r script s :
  let s' := final (exec fetchBooks (r :: script) s) in
  isModalOpen s' = isModalOpen s ∧ isLoading s' = isLoading s
  ∧ editingBook s' = editingBook s ∧ formData s' = formData s
  ∧ failedImages s' = failedImages s.
Proof.
  destruct r as [reason | [[] [reason | data]]]; repeat split; reflexivity.
Qed.

(** Running a handler alone is a run of the page: on a page with nothing
    suspended, starting the task and answering its requests one after the
    other from the script ends in the state [exec] computes. *)
Lemma exec_is_a_run (t : Task unit) (o : Origin) :
  ∀ script p,
    suspended p = [] →
    status (exec t script (screen p)) ≠ Pending →
    let out := exec t script (screen p) in
    ∃ p',
      run (map (Answer 0) (take (length (requests out)) script))
          (settle o t p) = Some p'
      ∧ screen p' = final out
      ∧ suspended p' = []
      ∧ sent p' = (sent p ++ requests out)%list.
Proof.
  induction t as [a | m | f k IH | req k IH]; intros script p Hnone Hdone; cbn.
  - exists p. rewrite app_nil_r. auto.
  - exists p. rewrite app_nil_r. auto.
  - apply (IH script (mkPage (f (screen p)) (suspended p) (sent p)));
      assumption.
  - destruct script as [| r script]; [cbn in Hdone; congruence |].
    cbn in Hdone. cbn. rewrite Hnone. cbn.
    destruct (IH r script (mkPage (screen p) [] (sent p ++ [req])%list)
                 eq_refl Hdone) as (p' & Hrun & Hscreen & Hsus & Hsent).
    exists p'. repeat split; try assumption.
    rewrite Hsent. cbn. rewrite <- app_assoc. reflexivity.
Qed.

(** ** The list loader *)

(** C6. A list load answered successfully with [data] replaces the whole
    in-memory list by [data], whatever the list was before, and the grid then
    shows one card per returned book, in the returned order.  A load that
    fails (the request is rejected, the response is not [ok], or its body does
    not parse) sets the error to the static "Failed to load books" and leaves
    the list, and everything else, as it was. *)
Theorem fetchBooks_replaces_or_keeps (s : ScreenState) :
  (∀ data,
     let out := exec fetchBooks [Resolved (mkResponse true (Parsed data))] s in
     out = mkRun (setBooks data s) [loadRequest] Finished
     ∧ books (final out) = data
     ∧ map key (cards (render (final out))) = map Book._id data
     ∧ map cardTitle (cards (render (final out))) = map Book.title data
     ∧ error (final out) = error s)
  ∧ (∀ reason,
       exec fetchBooks [Rejected reason] s
       = mkRun (setError (Some "Failed to load books") s) [loadRequest] Finished)
  ∧ (∀ json,
       exec fetchBooks [Resolved (mkResponse false json)] s
       = mkRun (setError (Some "Failed to load books") s) [loadRequest] Finished)
  ∧ (∀ reason,
       exec fetchBooks [Resolved (mkResponse true (Malformed reason))] s
       = mkRun (setError (Some "Failed to load books") s) [loadRequest] Finished)
  ∧ books (setError (Some "Failed to load books") s) = books s.
Proof.
  repeat split; try reflexivity.
  - cbn. rewrite map_map. reflexivity.
  - cbn. rewrite map_map. reflexivity.
Qed.

(** ** The form controller *)

(** The request a submission opens with, as a function of the render it was
    started from. *)
Lemma handleSubmit_requests s script :
  ∃ save rest,
    requests (exec (handleSubmit s) script s) = save :: rest
    ∧ Forall (λ r, r = loadRequest) rest
    ∧ url save = match editingBook s with
                 | Some b => API_URL ++ "/books/" ++ Book._id b
                 | None => API_URL ++ "/books"
                 end
    ∧ method save = match editingBook s with
                    | Some _ => PUT
                    | None => POST
                    end.
Proof.
  destruct script as [| r script].
  - eexists _, []. cbn. repeat split; constructor.
  - destruct r as [reason | [[] json]].
    + eexists _, []. cbn. repeat split; constructor.
    + destruct script as [| r' script].
      * eexists _, [_]. cbn. repeat split. repeat constructor.
      * eexists _, [_].
        destruct r' as [reason | [[] [reason | data]]]; cbn;
          repeat split; repeat constructor.
    + eexists _, []. cbn. repeat split; constructor.
Qed.

(** C3. A submission whose request succeeds reloads the list: its second
    request is the list load, and when that load is answered with a
    collection the list afterwards is that collection, shown card by card in
    the returned order; when the reload fails the list stays as it was.  In
    both cases the submission closes the modal and resets the form: fields
    empty, no edit target, no error.  A submission whose request fails
    (rejected, or answered with a response that is not [ok]) sets the error to
    the static "Failed to save book" and leaves the modal flag, the form
    fields, the edit target and the list as they were.  Either way the
    handler finishes with the in-flight flag cleared. *)
Theorem handleSubmit_success_or_failure (s : ScreenState) :
  (∀ json r,
     let out :=
       exec (handleSubmit s) [Resolved (mkResponse true json); r] s in
     status out = Finished
     ∧ (∃ save, requests out = [save; loadRequest] ∧ method save ≠ GET)
     ∧ books (final out) = books (final (exec fetchBooks [r] s))
     ∧ books (final out)
       = match r with
         | Resolved (mkResponse true (Parsed data)) => data
         | _ => books s
         end
     ∧ map key (cards (render (final out)))
       = map Book._id match r with
                      | Resolved (mkResponse true (Parsed data)) => data
                      | _ => books s
                      end
     ∧ isModalOpen (final out) = false
     ∧ formData (final out) = emptyForm
     ∧ editingBook (final out) = None
     ∧ error (final out) = None
     ∧ isLoading (final out) = false)
  ∧ (∀ json data,
       books (final (exec (handleSubmit s)
                          [Resolved (mkResponse true json);
                           Resolved (mkResponse true (Parsed data))] s))
       = data)
  ∧ (∀ r,
       (∃ reason, r = Rejected reason)
       ∨ (∃ json, r = Resolved (mkResponse false json)) →
       let out := exec (handleSubmit s) [r] s in
       status out = Finished
       ∧ (∃ save, requests out = [save] ∧ method save ≠ GET)
       ∧ final out = setIsLoading false (setError (Some "Failed to save book") s)
       ∧ error (final out) = Some "Failed to save book"
       ∧ isModalOpen (final out) = isModalOpen s
       ∧ formData (final out) = formData s
       ∧ editingBook (final out) = editingBook s
       ∧ books (final out) = books s
       ∧ isLoading (final out) = false).
Proof.
  split; [| split].
  - intros json r out. subst out.
    destruct r as [reason | [[] [reason | data]]]; cbn;
      rewrite ?map_map;
      (repeat split; try reflexivity);
      (eexists; split; [reflexivity |]);
      destruct (editingBook s); discriminate.
  - reflexivity.
  - intros r [[reason ->] | [json ->]] out; subst out; cbn;
      (repeat split; try reflexivity);
      (eexists; split; [reflexivity |]);
      destruct (editingBook s); discriminate.
Qed.

Lemma handleSubmit_success_or_failure_witness :
  error (final (exec (handleSubmit initialState) [Rejected "offline"]
                     initialState))
  = Some "Failed to save book".
Proof.
  pose proof (handleSubmit_success_or_failure initialState) as (_ & _ & Hfail).
  destruct (Hfail (Rejected "offline")) as (_ & _ & _ & Herr & _).
  - left. exists "offline". reflexivity.
  - exact Herr.
Defined.

(** C4. A submission issues exactly one save request, and nothing else but
    list reloads.  The save request is a PUT addressed to the identifier of
    the edit target exactly when an edit target is set, and a POST to the
    collection otherwise.  In particular, a submission started right after
    [handleEdit b] is a PUT to [b]'s identifier and issues no POST. *)
Theorem handleSubmit_put_iff_editing (s : ScreenState)
    (script : list FetchResult) :
  (∃ save rest,
     requests (exec (handleSubmit s) script s) = save :: rest
     ∧ Forall (λ r, r = loadRequest) rest
     ∧ match editingBook s with
       | Some b =>
           method save = PUT ∧ url save = API_URL ++ "/books/" ++ Book._id b
       | None =>
           method save = POST ∧ url save = API_URL ++ "/books"
       end
     ∧ (method save = PUT ↔ is_Some (editingBook s))
     ∧ (method save = POST ↔ editingBook s = None))
  ∧ (∀ b : Book.t,
       let s' := final (exec (handleEdit b) [] s) in
       ∃ save rest,
         requests (exec (handleSubmit s') script s') = save :: rest
         ∧ method save = PUT
         ∧ url save = API_URL ++ "/books/" ++ Book._id b
         ∧ Forall (λ r, method r ≠ POST) (save :: rest)).
Proof.
  split.
  - destruct (handleSubmit_requests s script)
      as (save & rest & Hreq & Hrest & Hurl & Hmeth).
    exists save, rest. rewrite Hurl, Hmeth.
    destruct (editingBook s) as [b |]; repeat split; eauto; try discriminate.
    + intros [? ?]; discriminate.
  - intros b s'.
    destruct (handleSubmit_requests s' script)
      as (save & rest & Hreq & Hrest & Hurl & Hmeth).
    exists save, rest. subst s'. cbn in Hurl, Hmeth.
    repeat split; try assumption.
    constructor.
    + rewrite Hmeth. discriminate.
    + eapply Forall_impl; [exact Hrest |]. intros r ->. discriminate.
Qed.

(** ** The delete controller *)

(** C5. With the confirmation prompt declined, [handleDelete] issues no
    request and leaves the whole screen state unchanged.  With the prompt
    confirmed it opens with a DELETE addressed to the given identifier; when
    that succeeds it reloads the list, and the state afterwards is the one
    the load produces; when it fails the error becomes the static
    "Failed to delete book" and the list is unchanged. *)
Theorem handleDelete_confirmation (bookId : string) (s : ScreenState) :
  let del := mkRequest (API_URL ++ "/books/" ++ bookId) DELETE None in
  (∀ script, exec (handleDelete bookId false) script s = mkRun s [] Finished)
  ∧ (∀ script, ∃ rest,
       requests (exec (handleDelete bookId true) script s) = del :: rest)
  ∧ (∀ json r,
       let out :=
         exec (handleDelete bookId true)
              [Resolved (mkResponse true json); r] s in
       status out = Finished
       ∧ requests out = [del; loadRequest]
       ∧ final out = final (exec fetchBooks [r] s))
  ∧ (∀ json data,
       books (final (exec (handleDelete bookId true)
                          [Resolved (mkResponse true json);
                           Resolved (mkResponse true (Parsed data))] s))
       = data)
  ∧ (∀ reason,
       exec (handleDelete bookId true) [Rejected reason] s
       = mkRun (setError (Some "Failed to delete book") s) [del] Finished)
  ∧ (∀ json,
       exec (handleDelete bookId true) [Resolved (mkResponse false json)] s
       = mkRun (setError (Some "Failed to delete book") s) [del] Finished)
  ∧ books (setError (Some "Failed to delete book") s) = books s.
Proof.
  intros del. repeat split; try reflexivity.
  - intros script. destruct script as [| r script]; [eexists; reflexivity |].
    destruct r as [reason | [[] json]]; eexists; reflexivity.
  - destruct r as [reason | [[] [reason | data]]]; reflexivity.
  - destruct r as [reason | [[] [reason | data]]]; reflexivity.
  - destruct r as [reason | [[] [reason | data]]]; reflexivity.
Qed.

(** The scenario of the specification: the list endpoint returns the one
    book, the screen shows one card titled Dune by Herbert; a confirmed
    delete on identifier 1 sends DELETE /api/books/1, and the reload that
    returns the empty collection leaves an empty grid. *)
Example delete_dune_scenario :
  ∃ p1 p2,
    run [Answer 0 (Resolved (mkResponse true (Parsed [dune])))] mount = Some p1
    ∧ map (λ c, (cardTitle c, cardDescription c)) (cards (render (screen p1)))
      = [("Dune", "by Herbert")]
    ∧ run [User (ClickDelete "1" true);
           Answer 0 (Resolved (mkResponse true (Malformed "")));
           Answer 0 (Resolved (mkResponse true (Parsed [])))] p1 = Some p2
    ∧ map (λ r, (method r, url r)) (sent p2)
      = [(GET, "http://localhost:3001/api/books");
         (DELETE, "http://localhost:3001/api/books/1");
         (GET, "http://localhost:3001/api/books")]
    ∧ cards (render (screen p2)) = []
    ∧ alert (render (screen p2)) = None.
Proof.
  eexists _, _. split; [reflexivity |]. split; [reflexivity |].
  split; [reflexivity |]. repeat split.
Qed.

(** ** The cover image renderer *)

Lemma imageRequests_cards failed (bs : list Book.t) :
  omap (λ c, match coverView c with
             | img src _ => Some src
             | FallbackCover _ => None
             end) (map (renderCard failed) bs)
  = map (λ b, API_URL ++ Book.cover b)
        (filter (λ b, Book._id b ∉ failed) bs).
Proof.
  induction bs as [| b bs IH]; [reflexivity |].
  rewrite filter_cons. cbn. unfold renderCover at 1.
  destruct (decide (Book._id b ∈ failed)) as [Hin | Hout].
  - rewrite decide_False by (intros Hn; exact (Hn Hin)). exact IH.
  - rewrite decide_True by exact Hout. cbn. f_equal. exact IH.
Qed.

(** C9. The URLs fetched for the covers of a rendered screen are, card by
    card and in order, the base URL of the backend, the constant [API_URL]
    (http://localhost:3001/api), followed by the book's [cover] path; an
    image is requested for exactly the books whose identifier is not in the
    failed set. *)
Theorem cover_src_is_base_then_path (s : ScreenState) :
  imageRequests (render s)
  = map (λ b, "http://localhost:3001/api" ++ Book.cover b)
        (filter (λ b, Book._id b ∉ failedImages s) (books s))
  ∧ ∀ failed b,
      renderCover failed b = FallbackCover (Book.title b)
      ∨ renderCover failed b
        = img ("http://localhost:3001/api" ++ Book.cover b) (Book.title b).
Proof.
  split.
  - unfold imageRequests, render. cbn [cards books failedImages].
    apply imageRequests_cards.
  - intros failed b. unfold renderCover.
    destruct (decide (Book._id b ∈ failed)); [left | right]; reflexivity.
Qed.

(** ** Opening and dismissing the modal *)

(** C10. The dialog's own close mechanism ([onOpenChange]) assigns the
    modal flag and nothing else: form fields, edit target and error message
    are as before.  The Cancel button closes the modal and resets all three.
    No handler other than Cancel and a submission whose save request
    succeeded clears an edit target; so an edit target set by [handleEdit]
    is still set after the dialog was dismissed. *)
Theorem onOpenChange_only_sets_modal_flag :
  (∀ open script s,
     let out := exec (onOpenChange open) script s in
     out = mkRun (setIsModalOpen open s) [] Finished
     ∧ isModalOpen (final out) = open
     ∧ formData (final out) = formData s
     ∧ editingBook (final out) = editingBook s
     ∧ error (final out) = error s)
  ∧ (∀ script s,
       let out := exec cancel script s in
       status out = Finished
       ∧ isModalOpen (final out) = false
       ∧ formData (final out) = emptyForm
       ∧ editingBook (final out) = None
       ∧ error (final out) = None)
  ∧ (∀ e script s b,
       editingBook s = Some b →
       editingBook (final (exec (handler e s) script s)) = None →
       e = ClickCancel
       ∨ (e = SubmitForm
          ∧ ∃ json r rest,
              script = Resolved (mkResponse true json) :: r :: rest))
  ∧ (∀ b script s,
       let edited := final (exec (handleEdit b) script s) in
       editingBook (final (exec (onOpenChange false) script edited)) = Some b).
Proof.
  repeat split.
  - intros e script s b Hb Hnone.
    destruct e; cbn in Hnone; try congruence.
    + destruct confirmed; cbn in Hnone; [| congruence].
      destruct script as [| [reason | [[] json]] script];
        cbn in Hnone; try congruence.
      destruct script as [| [reason | [[] [reason | data]]] script];
        cbn in Hnone; congruence.
    + destruct files; cbn in Hnone; congruence.
    + left; reflexivity.
    + right. split; [reflexivity |].
      destruct script as [| [reason | [[] json]] script];
        cbn in Hnone; try congruence.
      destruct script as [| r script]; cbn in Hnone; [congruence |].
      eauto.
Qed.

Lemma onOpenChange_only_sets_modal_flag_witness :
  ClickCancel = ClickCancel
  ∨ (ClickCancel = SubmitForm
     ∧ ∃ json r rest,
         ([] : list FetchResult)
         = Resolved (mkResponse true json) :: r :: rest).
Proof.
  destruct onOpenChange_only_sets_modal_flag as (_ & _ & Honly & _).
  apply (Honly ClickCancel [] (setEditingBook (Some dune) initialState) dune);
    reflexivity.
Defined.

(** C1.  The Add New Book button runs [setIsModalOpen(true)] and nothing
    else, so it opens the modal over whatever form and edit target the state
    holds.  After the list has loaded, Edit on a card followed by dismissing
    the dialog through [onOpenChange] and then Add New Book leaves the edit
    target set and the form filled with that book: the dialog is titled
    Edit Book, and submitting it sends a PUT to that book. *)
Theorem startCreate_after_dismissed_edit :
  (∀ script s,
     exec startCreate script s = mkRun (setIsModalOpen true s) [] Finished)
  ∧ ∃ p,
      run [Answer 0 (Resolved (mkResponse true (Parsed [dune])));
           User (ClickEdit dune);
           User (DialogOpenChange false);
           User ClickAddNewBook] mount = Some p
      ∧ isModalOpen (screen p) = true
      ∧ editingBook (screen p) = Some dune
      ∧ formData (screen p) = BookFormData.mk "Dune" "Herbert" "..." None
      ∧ dialogTitle (render (screen p)) = "Edit Book"
      ∧ ∃ p', step (User SubmitForm) p = Some p'
              ∧ map (λ r, (method r, url r)) (sent p')
                = [(GET, "http://localhost:3001/api/books");
                   (PUT, "http://localhost:3001/api/books/1")].
Proof.
  split; [reflexivity |].
  eexists. split; [reflexivity |].
  repeat split. eexists. split; reflexivity.
Qed.

(** ** The event loop: what every handler maintains *)

Ltac each_answer :=
  repeat first
    [ exact I
    | split
    | intros [? | [[] [? | ?]]]; cbn ].

Section Preservation.
Variable P : (ScreenState → ScreenState) → Prop.
Hypothesis handler_ok : ∀ e s, updates_satisfy P (handler e s).
Hypothesis fetchBooks_ok : updates_satisfy P fetchBooks.

Lemma settle_suspended o t p :
  updates_satisfy P t → suspended_satisfy P p →
  suspended_satisfy P (settle o t p).
Proof.
  revert p. induction t as [a | m | f k IH | req k IH]; intros p Ht Hp; cbn.
  - exact Hp.
  - exact Hp.
  - destruct Ht as [_ Hk]. apply IH; assumption.
  - unfold suspended_satisfy. cbn. apply Forall_app. split; [exact Hp |].
    constructor; [| constructor]. exact Ht.
Qed.

Lemma step_suspended a p p' :
  step a p = Some p' → suspended_satisfy P p → suspended_satisfy P p'.
Proof.
  destruct a as [e | i r]; cbn; intros Hstep Hp.
  - destruct (enabled e (screen p)); [| discriminate].
    injection Hstep as <-. apply settle_suspended; [apply handler_ok | exact Hp].
  - destruct (suspended p !! i) as [t |] eqn:Hi; [| discriminate].
    injection Hstep as <-. apply settle_suspended.
    + unfold suspended_satisfy in Hp. rewrite Forall_lookup in Hp.
      exact (Hp i t Hi r).
    + unfold suspended_satisfy. cbn. apply Forall_delete. exact Hp.
Qed.

Lemma reachable_suspended p : reachable p → suspended_satisfy P p.
Proof.
  induction 1 as [| a p p' _ IH Hstep].
  - apply settle_suspended; [exact fetchBooks_ok | constructor].
  - exact (step_suspended a p p' Hstep IH).
Qed.
End Preservation.

Section Invariant.
Variable Inv : ScreenState → Prop.
Hypothesis handler_keeps : ∀ e s, updates_satisfy (keeps Inv) (handler e s).
Hypothesis fetchBooks_keeps : updates_satisfy (keeps Inv) fetchBooks.

Lemma settle_keeps o t p :
  updates_satisfy (keeps Inv) t → Inv (screen p) →
  Inv (screen (settle o t p)).
Proof.
  revert p. induction t as [a | m | f k IH | req k IH]; intros p Ht Hp; cbn.
  - exact Hp.
  - exact Hp.
  - destruct Ht as [Hf Hk]. apply IH; [exact Hk |]. cbn. apply Hf, Hp.
  - exact Hp.
Qed.

Lemma step_keeps a p p' :
  suspended_satisfy (keeps Inv) p → step a p = Some p' →
  Inv (screen p) → Inv (screen p').
Proof.
  intros Hsus Hstep Hp. destruct a as [e | i r]; cbn in Hstep.
  - destruct (enabled e (screen p)); [| discriminate].
    injection Hstep as <-. apply settle_keeps; [apply handler_keeps | exact Hp].
  - destruct (suspended p !! i) as [t |] eqn:Hi; [| discriminate].
    injection Hstep as <-. apply settle_keeps; [| exact Hp].
    unfold suspended_satisfy in Hsus. rewrite Forall_lookup in Hsus.
    exact (Hsus i t Hi r).
Qed.

Lemma run_keeps actions p p' :
  suspended_satisfy (keeps Inv) p → run actions p = Some p' →
  Inv (screen p) → Inv (screen p').
Proof.
  revert p. induction actions as [| a actions IH]; intros p Hsus Hrun Hp.
  - injection Hrun as <-. exact Hp.
  - cbn in Hrun. destruct (step a p) as [q |] eqn:Hstep; [| discriminate].
    apply (IH q).
    + exact (step_suspended _ handler_keeps a p q Hstep Hsus).
    + exact Hrun.
    + exact (step_keeps a p q Hsus Hstep Hp).
Qed.

Lemma reachable_keeps p :
  Inv initialState → reachable p → Inv (screen p).
Proof.
  intros Hinit. induction 1 as [| a p p' Hreach IH Hstep].
  - apply settle_keeps; [exact fetchBooks_keeps | exact Hinit].
  - apply (step_keeps a p p'); try assumption.
    exact (reachable_suspended _ handler_keeps fetchBooks_keeps p Hreach).
Qed.
End Invariant.

Lemma run_reachable actions p p' :
  reachable p → run actions p = Some p' → reachable p'.
Proof.
  revert p. induction actions as [| a actions IH]; intros p Hp Hrun.
  - injection Hrun as <-. exact Hp.
  - cbn in Hrun. destruct (step a p) as [q |] eqn:Hstep; [| discriminate].
    apply (IH q); [| exact Hrun]. exact (reachable_step a p q Hp Hstep).
Qed.

(** ** Error messages *)

Lemma fetchBooks_keeps_allowedError :
  updates_satisfy (keeps allowedError) fetchBooks.
Proof.
  cbn. each_answer; intros s Hs; unfold allowedError in *; cbn;
    first [assumption | exact I | repeat constructor].
Qed.

Lemma handler_keeps_allowedError e s :
  updates_satisfy (keeps allowedError) (handler e s).
Proof.
  destruct e; cbn; try destruct confirmed; try destruct files; cbn;
    each_answer; intros s' Hs'; unfold allowedError in *; cbn;
    first [assumption | exact I | repeat constructor].
Qed.

(** No run of a handler ends in an uncaught error. *)
Lemma handler_never_throws e s script m :
  status (exec (handler e s) script s) ≠ Uncaught m.
Proof.
  destruct e; cbn; try discriminate.
  - destruct confirmed; cbn; [| discriminate].
    destruct script as [| [reason | [[] json]] script]; cbn; try discriminate.
    destruct script as [| [reason | [[] [reason | data]]] script];
      cbn; discriminate.
  - destruct files; cbn; discriminate.
  - destruct script as [| [reason | [[] json]] script]; cbn; try discriminate.
    destruct script as [| [reason | [[] [reason | data]]] script];
      cbn; discriminate.
Qed.

(** C2. In every state the page can reach, under any sequence of user
    events and any answers of the backend, the error message is absent or
    one of the three static strings "Failed to load books", "Failed to save
    book", "Failed to delete book"; the alert shows nothing else.  Each of
    the three does occur.  No handler lets an error escape: the messages of
    the thrown errors and of rejected requests never reach the user. *)
Theorem error_is_one_of_three_static_messages :
  (∀ p, reachable p →
        allowedError (screen p)
        ∧ ∀ m, alert (render (screen p)) = Some m →
               m = "Failed to load books" ∨ m = "Failed to save book"
               ∨ m = "Failed to delete book")
  ∧ (∀ m, m ∈ staticMessages →
          ∃ p, reachable p ∧ error (screen p) = Some m)
  ∧ (∀ e s script m, status (exec (handler e s) script s) ≠ Uncaught m).
Proof.
  split; [| split].
  - intros p Hp.
    assert (Hok : allowedError (screen p)).
    { apply reachable_keeps; try assumption.
      - apply handler_keeps_allowedError.
      - apply fetchBooks_keeps_allowedError.
      - exact I. }
    split; [exact Hok |].
    intros m Hm. unfold allowedError in Hok. cbn in Hm. rewrite Hm in Hok.
    unfold staticMessages in Hok.
    rewrite !elem_of_cons, elem_of_nil in Hok. tauto.
  - intros m Hm. unfold staticMessages in Hm.
    apply elem_of_cons in Hm as [-> | Hm];
      [| apply elem_of_cons in Hm as [-> | Hm];
         [| apply elem_of_cons in Hm as [-> | Hm];
            [| apply elem_of_nil in Hm; contradiction]]].
    + eexists. split.
      * apply (run_reachable [Answer 0 (Rejected "offline")] mount);
          [constructor | reflexivity].
      * reflexivity.
    + eexists. split.
      * apply (run_reachable
                 [User SubmitForm; Answer 1 (Rejected "offline")] mount);
          [constructor | reflexivity].
      * reflexivity.
    + eexists. split.
      * apply (run_reachable
                 [User (ClickDelete "1" true); Answer 1 (Rejected "offline")]
                 mount);
          [constructor | reflexivity].
      * reflexivity.
  - apply handler_never_throws.
Qed.

Lemma error_is_one_of_three_static_messages_witness :
  reachable mount ∧ allowedError (screen mount).
Proof.
  split; [constructor |].
  destruct error_is_one_of_three_static_messages as (Hinv & _ & _).
  apply (Hinv mount). constructor.
Defined.

(** ** Failed images *)

Lemma fetchBooks_keeps_failed (bookId : string) :
  updates_satisfy (keeps (λ s, bookId ∈ failedImages s)) fetchBooks.
Proof. cbn. each_answer; intros s Hs; exact Hs. Qed.

Lemma handler_keeps_failed (bookId : string) e s :
  updates_satisfy (keeps (λ s, bookId ∈ failedImages s)) (handler e s).
Proof.
  destruct e; cbn; try destruct confirmed; try destruct files; cbn;
    each_answer; intros s' Hs'; cbn; try exact Hs'.
  apply elem_of_union_l, Hs'.
Qed.

Lemma lookup_cards failed (bs : list Book.t) (i : nat) :
  map (renderCard failed) bs !! i = renderCard failed <$> bs !! i.
Proof.
  revert i. induction bs as [| b bs IH]; intros [| i]; cbn; try reflexivity.
  apply IH.
Qed.

Lemma cards_of_failed_books failed (seen : gset string) (bs : list Book.t) :
  seen ⊆ failed →
  Forall (λ card, key card ∈ seen →
                  coverView card = FallbackCover (cardTitle card)
                  ∧ ∀ src alt, coverView card ≠ img src alt)
         (map (renderCard failed) bs).
Proof.
  intros Hsub. induction bs as [| b bs IH]; constructor; [| exact IH].
  cbn. intros Hin. unfold renderCover.
  rewrite decide_True by (apply Hsub, Hin). split; [reflexivity | discriminate].
Qed.

(** C7. The failed set only grows: from any reachable state of the page,
    whatever events and answers follow, every identifier in the set is still
    in it.  Hence in every later state the rendered grid shows, for each book
    of the list whose identifier is in the set, a card with the fallback
    view carrying the book's title, and never an image: every card of the
    rendered view whose key is in the set has the fallback cover.  An image
    error puts the identifier in the set. *)
Theorem failedImages_only_grows (p p' : Page) (actions : list Action) :
  reachable p →
  run actions p = Some p' →
  failedImages (screen p) ⊆ failedImages (screen p')
  ∧ (∀ book,
       Book._id book ∈ failedImages (screen p) →
       renderCover (failedImages (screen p')) book
       = FallbackCover (Book.title book))
  ∧ (∀ i book,
       books (screen p') !! i = Some book →
       Book._id book ∈ failedImages (screen p) →
       ∃ card,
         cards (render (screen p')) !! i = Some card
         ∧ key card = Book._id book
         ∧ coverView card = FallbackCover (Book.title book))
  ∧ Forall (λ card,
              key card ∈ failedImages (screen p) →
              coverView card = FallbackCover (cardTitle card)
              ∧ ∀ src alt, coverView card ≠ img src alt)
           (cards (render (screen p')))
  ∧ (∀ bookId, ∃ q,
       step (User (ImageError bookId)) p' = Some q
       ∧ bookId ∈ failedImages (screen q)).
Proof.
  intros Hreach Hrun.
  assert (Hmono : ∀ bookId, bookId ∈ failedImages (screen p) →
                            bookId ∈ failedImages (screen p')).
  { intros bookId Hin.
    apply (run_keeps (λ s, bookId ∈ failedImages s)
                     (handler_keeps_failed bookId) actions p p');
      [| exact Hrun | exact Hin].
    apply reachable_suspended;
      [apply handler_keeps_failed | apply fetchBooks_keeps_failed | exact Hreach]. }
  split; [| split; [| split; [| split]]].
  - intros bookId. apply Hmono.
  - intros book Hin. unfold renderCover.
    rewrite decide_True by (apply Hmono, Hin). reflexivity.
  - intros i book Hbook Hin.
    exists (renderCard (failedImages (screen p')) book).
    cbn [render cards]. rewrite lookup_cards, Hbook.
    split; [reflexivity |]. split; [reflexivity |].
    cbn. unfold renderCover.
    rewrite decide_True by (apply Hmono, Hin). reflexivity.
  - cbn [render cards]. apply cards_of_failed_books.
    intros bookId. apply Hmono.
  - intros bookId. eexists. split; [reflexivity |].
    cbn. apply elem_of_union_r, elem_of_singleton. reflexivity.
Qed.

Lemma failedImages_only_grows_witness :
  ∃ card,
    cards (render (screen (default mount
             (run [Answer 0 (Resolved (mkResponse true (Parsed [dune])));
                   User (ImageError "1");
                   User (ClickEdit dune);
                   User ClickCancel] mount))))
      !! 0 = Some card
    ∧ key card = "1"
    ∧ coverView card = FallbackCover "Dune".
Proof.
  pose (p := default mount
               (run [Answer 0 (Resolved (mkResponse true (Parsed [dune])));
                     User (ImageError "1")] mount)).
  assert (Hp : reachable p).
  { apply (run_reachable
             [Answer 0 (Resolved (mkResponse true (Parsed [dune])));
              User (ImageError "1")] mount);
      [constructor | reflexivity]. }
  destruct (failedImages_only_grows p
              (default mount (run [User (ClickEdit dune); User ClickCancel] p))
              [User (ClickEdit dune); User ClickCancel] Hp eq_refl)
    as (_ & _ & Hcard & _).
  destruct (Hcard 0 dune eq_refl) as (card & Hlook & Hkey & Hview).
  - cbn. apply elem_of_union_r, elem_of_singleton. reflexivity.
  - exists card. split; [exact Hlook |]. split; assumption.
Defined.

(** ** The submit guard *)

Lemma filter_delete_length {A : Type} (Q : A → Prop)
    `{∀ x, Decision (Q x)} (l : list A) (i : nat) (x : A) :
  l !! i = Some x →
  length (filter Q l)
  = length (filter Q (delete i l)) + (if decide (Q x) then 1 else 0).
Proof.
  revert i. induction l as [| y l IH]; intros [| i] Hi; cbn in Hi;
    try discriminate.
  - injection Hi as ->. cbn [delete list_delete]. rewrite filter_cons.
    destruct (decide (Q x)); cbn; lia.
  - cbn [delete list_delete]. rewrite !filter_cons. specialize (IH i Hi).
    destruct (decide (Q y)); cbn [length]; rewrite IH; reflexivity.
Qed.

Lemma fetchBooks_frames_loading :
  updates_satisfy frames_loading fetchBooks.
Proof. cbn. each_answer; intros s; reflexivity. Qed.

Lemma handler_frames_loading e s :
  e ≠ SubmitForm → updates_satisfy frames_loading (handler e s).
Proof.
  intros He.
  destruct e; try congruence; cbn;
    try destruct confirmed; try destruct files; cbn;
    each_answer; intros s'; reflexivity.
Qed.

Lemma handleSubmit_tracks_loading b s :
  tracks_loading b (handleSubmit s).
Proof.
  cbn. exists true. split; [reflexivity |].
  exists true. split; [intros s' Hs'; exact Hs' |].
  split; [reflexivity |].
  intros [reason | [[] json]]; cbn.
  - exists true. split; [intros s' Hs'; exact Hs' |].
    exists false. split; reflexivity.
  - split; [reflexivity |].
    intros [reason | [[] [reason | data]]]; cbn;
      repeat (eexists; split;
              [intros s' Hs'; first [exact Hs' | reflexivity] |]);
      reflexivity.
  - exists true. split; [intros s' Hs'; exact Hs' |].
    exists false. split; reflexivity.
Qed.

Lemma submitsInFlight_snoc (p : Page) (t : Suspended) :
  length (filter isSubmit (suspended p ++ [t])%list)
  = submitsInFlight p + (if decide (isSubmit t) then 1 else 0).
Proof.
  unfold submitsInFlight. rewrite filter_app, length_app.
  rewrite filter_cons, filter_nil.
  destruct (decide (isSubmit t)); reflexivity.
Qed.

(** A task of a submission, resumed while no other submission waits, leaves
    the page guarded. *)
Lemma settle_submit_guard t b p :
  tracks_loading b t →
  isLoading (screen p) = b →
  submitsInFlight p = 0 →
  Forall (λ t, if decide (isSubmit t)
               then ∀ r, tracks_loading true (resume t r)
               else ∀ r, updates_satisfy frames_loading (resume t r))
         (suspended p) →
  submitGuard (settle (FromEvent SubmitForm) t p).
Proof.
  revert b p.
  induction t as [a | m | f k IH | req k IH]; intros b p Ht Hb Hnone Hall; cbn.
  - cbn in Ht. split; [| exact Hall]. rewrite Hnone, Hb, Ht. reflexivity.
  - cbn in Ht. split; [| exact Hall]. rewrite Hnone, Hb, Ht. reflexivity.
  - destruct Ht as (b' & Hf & Hk).
    apply (IH b'); [exact Hk | cbn; apply Hf, Hb | exact Hnone | exact Hall].
  - destruct Ht as [-> Hk]. split; cbn.
    + rewrite submitsInFlight_snoc, Hnone, Hb.
      rewrite decide_True by reflexivity. reflexivity.
    + apply Forall_app. split; [exact Hall |].
      constructor; [| constructor].
      rewrite decide_True by reflexivity. exact Hk.
Qed.

(** A task that is not a submission leaves the page guarded. *)
Lemma settle_other_guard o t p :
  o ≠ FromEvent SubmitForm →
  updates_satisfy frames_loading t →
  submitGuard p →
  submitGuard (settle o t p).
Proof.
  intros Ho. revert p.
  induction t as [a | m | f k IH | req k IH]; intros p Ht Hp; cbn.
  - exact Hp.
  - exact Hp.
  - destruct Ht as [Hf Hk]. apply IH; [exact Hk |].
    destruct Hp as [Hcount Hall]. split; [| exact Hall].
    cbn. rewrite Hf. exact Hcount.
  - destruct Hp as [Hcount Hall]. split; cbn.
    + rewrite submitsInFlight_snoc, Hcount.
      rewrite decide_False by exact Ho. lia.
    + apply Forall_app. split; [exact Hall |].
      constructor; [| constructor].
      rewrite decide_False by exact Ho. exact Ht.
Qed.

Lemma step_submitGuard a p p' :
  step a p = Some p' → submitGuard p → submitGuard p'.
Proof.
  intros Hstep [Hcount Hall]. destruct a as [e | i r]; cbn in Hstep.
  - destruct (enabled e (screen p)) eqn:Hen; [| discriminate].
    injection Hstep as <-.
    destruct (decide (e = SubmitForm)) as [-> | He].
    + cbn in Hen. apply negb_true_iff in Hen.
      apply (settle_submit_guard _ false).
      * apply handleSubmit_tracks_loading.
      * exact Hen.
      * rewrite Hcount, Hen. reflexivity.
      * exact Hall.
    + apply settle_other_guard.
      * congruence.
      * apply handler_frames_loading, He.
      * split; assumption.
  - destruct (suspended p !! i) as [t |] eqn:Hi; [| discriminate].
    injection Hstep as <-.
    pose proof (filter_delete_length isSubmit (suspended p) i t Hi) as Hlen.
    fold (submitsInFlight p) in Hlen.
    pose proof (Hall' := Hall). rewrite Forall_lookup in Hall'.
    specialize (Hall' i t Hi). cbn in Hall'.
    destruct (decide (isSubmit t)) as [Hsub | Hsub].
    + unfold isSubmit in Hsub. rewrite Hsub.
      assert (Hload : isLoading (screen p) = true).
      { destruct (isLoading (screen p)); [reflexivity | lia]. }
      apply (settle_submit_guard _ true).
      * apply Hall'.
      * exact Hload.
      * unfold submitsInFlight. cbn [suspended].
        rewrite Hload in Hcount. lia.
      * cbn [suspended]. apply Forall_delete, Hall.
    + apply settle_other_guard.
      * exact Hsub.
      * apply Hall'.
      * split.
        -- unfold submitsInFlight. cbn [suspended screen].
           rewrite <- Hcount. lia.
        -- cbn [suspended]. apply Forall_delete, Hall.
Qed.

Lemma reachable_submitGuard p : reachable p → submitGuard p.
Proof.
  induction 1 as [| a p p' _ IH Hstep].
  - apply settle_other_guard.
    + discriminate.
    + apply fetchBooks_frames_loading.
    + split; [reflexivity | constructor].
  - exact (step_submitGuard a p p' Hstep IH).
Qed.

(** C8. In every state the page can reach, at most one submission of the
    form is waiting for the backend, and one is waiting exactly when the
    in-flight flag is set.  While the flag is set the submit button is
    disabled, so no further submission can be started; while it is clear, a
    submission starts, sets the flag and becomes the one in flight. *)
Theorem no_concurrent_submits (p : Page) :
  reachable p →
  (submitsInFlight p ≤ 1)%nat
  ∧ (isLoading (screen p) = true ↔ submitsInFlight p = 1)
  ∧ (isLoading (screen p) = true →
     submitDisabled (render (screen p)) = true
     ∧ step (User SubmitForm) p = None)
  ∧ (isLoading (screen p) = false →
     ∃ p', step (User SubmitForm) p = Some p'
           ∧ isLoading (screen p') = true
           ∧ submitsInFlight p' = 1).
Proof.
  intros Hreach.
  destruct (reachable_submitGuard p Hreach) as [Hcount _].
  split; [| split; [| split]].
  - rewrite Hcount. destruct (isLoading (screen p)); lia.
  - split.
    + intros Hload. rewrite Hcount, Hload. reflexivity.
    + intros Hone. rewrite Hcount in Hone.
      destruct (isLoading (screen p)); [reflexivity | discriminate].
  - intros Hload. split; [exact Hload |].
    cbn. rewrite Hload. reflexivity.
  - intros Hclear.
    assert (Hstep : step (User SubmitForm) p
                    = Some (settle (FromEvent SubmitForm)
                                   (handleSubmit (screen p)) p)).
    { cbn. rewrite Hclear. reflexivity. }
    eexists. split; [exact Hstep |].
    pose proof (reachable_submitGuard _ (reachable_step _ _ _ Hreach Hstep))
      as [Hcount' _].
    assert (Hload' : isLoading (screen (settle (FromEvent SubmitForm)
                                               (handleSubmit (screen p)) p))
                     = true) by reflexivity.
    split; [exact Hload' |]. rewrite Hcount', Hload'. reflexivity.
Qed.

Lemma no_concurrent_submits_witness :
  (submitsInFlight
     (settle (FromEvent SubmitForm) (handleSubmit (screen mount)) mount)
   ≤ 1)%nat.
Proof.
  apply (no_concurrent_submits
           (settle (FromEvent SubmitForm) (handleSubmit (screen mount)) mount)).
  apply (reachable_step (User SubmitForm) mount); [constructor | reflexivity].
Defined.

(** ** The form: typing, choosing a file, prefilling *)

Lemma with_field_title name value fd :
  BookFormData.title (with_field name value fd)
  = if decide (name = "title") then value else BookFormData.title fd.
Proof. unfold with_field. repeat case_decide; subst; try reflexivity; congruence. Qed.

Lemma with_field_author name value fd :
  BookFormData.author (with_field name value fd)
  = if decide (name = "author") then value else BookFormData.author fd.
Proof. unfold with_field. repeat case_decide; subst; try reflexivity; congruence. Qed.

Lemma with_field_description name value fd :
  BookFormData.description (with_field name value fd)
  = if decide (name = "description") then value
    else BookFormData.description fd.
Proof. unfold with_field. repeat case_decide; subst; try reflexivity; congruence. Qed.

Lemma with_field_cover name value fd :
  BookFormData.cover (with_field name value fd) = BookFormData.cover fd.
Proof. unfold with_field. repeat case_decide; reflexivity. Qed.

Lemma step_offered_input (name value : string) (p : Page) :
  isModalOpen (screen p) = true →
  name ∈ formInputs →
  step_offered (User (InputChange name value)) p
  = Some (mkPage (setFormData (with_field name value (formData (screen p)))
                              (screen p))
                 (suspended p) (sent p)).
Proof.
  intros Hopen Hname. cbn. rewrite Hopen.
  rewrite (bool_decide_eq_true_2 _ Hname). reflexivity.
Qed.

Lemma run_offered_run (actions : list Action) (p p' : Page) :
  run_offered actions p = Some p' → run actions p = Some p'.
Proof.
  revert p. induction actions as [| a actions IH]; intros p Hrun.
  - exact Hrun.
  - cbn in Hrun. destruct (step_offered a p) as [q |] eqn:Hstep;
      [| discriminate].
    assert (Hq : step a p = Some q).
    { destruct a as [e | i r]; cbn in Hstep; [| exact Hstep].
      destruct (offered e (screen p)); [exact Hstep | discriminate]. }
    cbn [run]. rewrite Hq. apply IH, Hrun.
Qed.

(** X1. While the dialog is open, after any sequence of changes of the
    inputs named title, author and description, each of the three inputs
    shows the value typed into it last, or what it showed before when
    nothing was typed into it.  Typing changes nothing else: not the pending
    cover file, not any other cell of the state; it suspends no handler and
    sends no request. *)
Theorem inputs_show_last_typed (edits : list (string * string)) (p : Page) :
  isModalOpen (screen p) = true →
  Forall (λ e, e.1 ∈ formInputs) edits →
  ∃ p',
    run_offered (map (λ e, User (InputChange e.1 e.2)) edits) p = Some p'
    ∧ run (map (λ e, User (InputChange e.1 e.2)) edits) p = Some p'
    ∧ titleInput (render (screen p'))
      = last_typed "title" edits (titleInput (render (screen p)))
    ∧ authorInput (render (screen p'))
      = last_typed "author" edits (authorInput (render (screen p)))
    ∧ descriptionInput (render (screen p'))
      = last_typed "description" edits (descriptionInput (render (screen p)))
    ∧ BookFormData.cover (formData (screen p'))
      = BookFormData.cover (formData (screen p))
    ∧ screen p' = setFormData (formData (screen p')) (screen p)
    ∧ suspended p' = suspended p
    ∧ sent p' = sent p.
Proof.
  revert p. induction edits as [| [name value] edits IH]; intros p Hopen Hnames.
  - exists p. destruct p as [[] ? ?]. repeat split.
  - apply Forall_cons in Hnames as [Hname Hnames]. cbn in Hname.
    destruct (IH (mkPage (setFormData
                            (with_field name value (formData (screen p)))
                            (screen p))
                         (suspended p) (sent p)) Hopen Hnames)
      as (p' & Hoff & Hrun & Ht & Ha & Hd & Hc & Hs & Hsus & Hsent).
    exists p'. cbn [map run run_offered fst snd].
    rewrite (step_offered_input name value p Hopen Hname).
    split; [exact Hoff |]. split; [exact Hrun |].
    cbn in Ht, Ha, Hd, Hc.
    rewrite with_field_title in Ht. rewrite with_field_author in Ha.
    rewrite with_field_description in Hd. rewrite with_field_cover in Hc.
    repeat split; assumption.
Qed.

Lemma inputs_show_last_typed_witness :
  ∃ p',
    run_offered [User (InputChange "title" "Dune");
                 User (InputChange "author" "Herbert");
                 User (InputChange "title" "Dune Messiah")]
                (settle (FromEvent ClickAddNewBook) startCreate mount)
    = Some p'
    ∧ titleInput (render (screen p')) = "Dune Messiah"
    ∧ authorInput (render (screen p')) = "Herbert"
    ∧ descriptionInput (render (screen p')) = "".
Proof.
  destruct (inputs_show_last_typed
              [("title", "Dune"); ("author", "Herbert");
               ("title", "Dune Messiah")]
              (settle (FromEvent ClickAddNewBook) startCreate mount))
    as (p' & Hoff & _ & Ht & Ha & Hd & _).
  - reflexivity.
  - unfold formInputs. repeat constructor.
  - exists p'. repeat split; assumption.
Defined.

(** X2. The save request carries what the form holds when the submission
    starts: the text fields title, author and description with the values
    the three inputs show, in that order, followed by the pending cover file
    under the name cover if one was chosen, and by nothing otherwise. *)
Theorem handleSubmit_sends_the_form (s : ScreenState)
    (script : list FetchResult) :
  ∃ save,
    head (requests (exec (handleSubmit s) script s)) = Some save
    ∧ body save
      = Some ([("title", Text (titleInput (render s)));
               ("author", Text (authorInput (render s)));
               ("description", Text (descriptionInput (render s)))]
              ++ match BookFormData.cover (formData s) with
                 | Some file => [("cover", Blob file)]
                 | None => []
                 end)%list.
Proof.
  destruct script as [| r script]; eexists; (split; [reflexivity |]);
    cbn; destruct (BookFormData.cover (formData s)); reflexivity.
Qed.

(** X3. Choosing files keeps the first one and drops the rest; closing the
    file picker without a selection changes nothing, so a file chosen earlier
    stays pending.  The next submission sends the text fields unchanged and
    that file. *)
Theorem chosen_file_is_sent (files : list File) (s : ScreenState)
    (script : list FetchResult) :
  let s' := final (exec (handleFileChange files s) script s) in
  exec (handleFileChange [] s) script s = mkRun s [] Finished
  ∧ BookFormData.cover (formData s')
    = match files with
      | file :: _ => Some file
      | [] => BookFormData.cover (formData s)
      end
  ∧ s' = setFormData (formData s') s
  ∧ ∃ save,
      head (requests (exec (handleSubmit s') script s')) = Some save
      ∧ body save
        = Some ([("title", Text (titleInput (render s)));
                 ("author", Text (authorInput (render s)));
                 ("description", Text (descriptionInput (render s)))]
                ++ match files with
                   | file :: _ => [("cover", Blob file)]
                   | [] =>
                       match BookFormData.cover (formData s) with
                       | Some file => [("cover", Blob file)]
                       | None => []
                       end
                   end)%list.
Proof.
  destruct files as [| file files]; cbn.
  - repeat split; [destruct s; reflexivity |].
    destruct script as [| r script]; eexists; (split; [reflexivity |]);
      cbn; destruct (BookFormData.cover (formData s)); reflexivity.
  - repeat split.
    destruct script as [| r script]; eexists; split; reflexivity.
Qed.

(** X4. Edit on a card finishes at once without a request.  It opens the
    dialog titled Edit Book with the three inputs showing the book's title,
    author and description, and discards a cover file that was pending.  It
    does not clear the error message, and leaves the list, the in-flight flag
    and the failed set alone.  A submission started from there sends the
    book's three fields and no file. *)
Theorem handleEdit_prefills_form (book : Book.t) (s : ScreenState)
    (script script' : list FetchResult) :
  let out := exec (handleEdit book) script s in
  let s' := final out in
  status out = Finished
  ∧ requests out = []
  ∧ dialogOpen (render s') = true
  ∧ dialogTitle (render s') = "Edit Book"
  ∧ titleInput (render s') = Book.title book
  ∧ authorInput (render s') = Book.author book
  ∧ descriptionInput (render s') = Book.description book
  ∧ BookFormData.cover (formData s') = None
  ∧ alert (render s') = alert (render s)
  ∧ books s' = books s
  ∧ isLoading s' = isLoading s
  ∧ failedImages s' = failedImages s
  ∧ ∃ save,
      head (requests (exec (handleSubmit s') script' s')) = Some save
      ∧ body save = Some [("title", Text (Book.title book));
                          ("author", Text (Book.author book));
                          ("description", Text (Book.description book))].
Proof.
  cbn. repeat split.
  destruct script' as [| r script']; eexists; split; reflexivity.
Qed.

(** ** What a handler costs and what it may write *)

(** X5. A user action costs at most two requests.  Only a submission and a
    confirmed delete send any; every other handler finishes at once without
    touching the network.  A handler that has not finished is waiting for an
    answer the script did not supply. *)
Theorem handler_sends_at_most_two_requests (e : Event) (s : ScreenState)
    (script : list FetchResult) :
  let out := exec (handler e s) script s in
  (length (requests out) ≤ 2)%nat
  ∧ (status out = Finished
     ∨ (status out = Pending
        ∧ length (requests out) = S (length script)
        ∧ (length script < 2)%nat))
  ∧ match e with
    | SubmitForm | ClickDelete _ true => requests out ≠ []
    | _ => requests out = [] ∧ status out = Finished
    end.
Proof.
  destruct e; cbn; try (repeat split; solve [lia | left; reflexivity]).
  - destruct confirmed; cbn;
      [| repeat split; solve [lia | left; reflexivity]].
    destruct script as [| [reason | [[] json]] script]; cbn;
      try (repeat split; solve [lia | discriminate | left; reflexivity
                               | right; repeat split; cbn; lia]).
    destruct script as [| [reason | [[] [reason | data]]] script]; cbn;
      repeat split; solve [lia | discriminate | left; reflexivity
                          | right; repeat split; cbn; lia].
  - destruct files; cbn; repeat split; solve [lia | left; reflexivity].
  - destruct script as [| [reason | [[] json]] script]; cbn;
      try (repeat split; solve [lia | discriminate | left; reflexivity
                               | right; repeat split; cbn; lia]).
    destruct script as [| [reason | [[] [reason | data]]] script]; cbn;
      repeat split; solve [lia | discriminate | left; reflexivity
                          | right; repeat split; cbn; lia].
Qed.

(** X6. No handler patches the list in place.  After any handler, run
    against any answers, the list is the one it started with or a collection
    that the backend returned, whole, in a successful answer. *)
Theorem list_changes_only_by_a_load (e : Event) (s : ScreenState)
    (script : list FetchResult) :
  let out := exec (handler e s) script s in
  books (final out) = books s
  ∨ Resolved (mkResponse true (Parsed (books (final out)))) ∈ script.
Proof.
  destruct e; cbn; try (left; reflexivity).
  - destruct confirmed; cbn; [| left; reflexivity].
    destruct script as [| [reason | [[] json]] script]; cbn;
      try (left; reflexivity).
    destruct script as [| [reason | [[] [reason | data]]] script]; cbn;
      try (left; reflexivity).
    right. rewrite !elem_of_cons. auto.
  - destruct files; left; reflexivity.
  - destruct script as [| [reason | [[] json]] script]; cbn;
      try (left; reflexivity).
    destruct script as [| [reason | [[] [reason | data]]] script]; cbn;
      try (left; reflexivity).
    right. rewrite !elem_of_cons. auto.
Qed.

(** X7. A delete, declined or confirmed, answered or not, successful or
    failed, never touches the dialog: the modal flag, the edit target, the
    form, the in-flight flag and the failed set are as before.  In
    particular deleting the book that is being edited leaves it as the edit
    target. *)
Theorem handleDelete_leaves_dialog (bookId : string) (confirmed : bool)
    (script : list FetchResult) (s : ScreenState) :
  let s' := final (exec (handleDelete bookId confirmed) script s) in
  isModalOpen s' = isModalOpen s
  ∧ editingBook s' = editingBook s
  ∧ formData s' = formData s
  ∧ isLoading s' = isLoading s
  ∧ failedImages s' = failedImages s.
Proof.
  destruct confirmed; cbn; [| repeat split].
  destruct script as [| [reason | [[] json]] script]; cbn;
    try (repeat split; fail).
  destruct script as [| [reason | [[] [reason | data]]] script]; cbn;
    repeat split.
Qed.

(** X8. Only an image error changes the failed set, and only a submission
    changes the in-flight flag: every other handler, run against any
    answers, leaves them as they were.  Cancel and the form reset do not
    forget failed images. *)
Theorem failed_set_and_flag_writers (e : Event) (s : ScreenState)
    (script : list FetchResult) :
  let s' := final (exec (handler e s) script s) in
  (failedImages s' = failedImages s ∨ ∃ bookId, e = ImageError bookId)
  ∧ (isLoading s' = isLoading s ∨ e = SubmitForm).
Proof.
  destruct e; cbn; try (split; left; reflexivity).
  - destruct confirmed; cbn; [| split; left; reflexivity].
    destruct script as [| [reason | [[] json]] script]; cbn;
      try (split; left; reflexivity).
    destruct script as [| [reason | [[] [reason | data]]] script]; cbn;
      split; left; reflexivity.
  - split; [right; eauto | left; reflexivity].
  - destruct files; split; left; reflexivity.
  - split; [| right; reflexivity]. left.
    destruct script as [| [reason | [[] json]] script]; cbn;
      try reflexivity.
    destruct script as [| [reason | [[] [reason | data]]] script]; cbn;
      reflexivity.
Qed.

(** ** Image errors *)

(** X9. After any sequence of image errors the failed set is the old set
    together with the reported identifiers: reporting an identifier twice,
    or in another order, gives the same set.  Nothing else changes, and no
    request is sent. *)
Theorem image_errors_accumulate (ids : list string) (p : Page) :
  ∃ p',
    run (map (λ bookId, User (ImageError bookId)) ids) p = Some p'
    ∧ failedImages (screen p') = failedImages (screen p) ∪ list_to_set ids
    ∧ screen p' = setFailedImages (λ _, failedImages (screen p')) (screen p)
    ∧ suspended p' = suspended p
    ∧ sent p' = sent p.
Proof.
  revert p. induction ids as [| bookId ids IH]; intros p.
  - exists p. cbn. destruct p as [[] ? ?]; cbn.
    repeat split. symmetry. apply union_empty_r_L.
  - destruct (IH (mkPage (setFailedImages (λ prev, prev ∪ {[bookId]})
                                          (screen p))
                         (suspended p) (sent p)))
      as (p' & Hrun & Hset & Hscreen & Hsus & Hsent).
    exists p'. cbn [map run]. split; [exact Hrun |].
    cbn in Hset, Hscreen, Hsus, Hsent.
    repeat split; try assumption.
    rewrite Hset. cbn. symmetry. apply (assoc_L (∪)).
Qed.

(** ** The submit button *)

(** X10. In every state the page can reach the submit button reads
    Saving... exactly while a submission is waiting for the backend, and
    Save Book exactly while none is. *)
Theorem saving_label_iff_submit_in_flight (p : Page) :
  reachable p →
  (submitLabel (render (screen p)) = "Saving..." ↔ submitsInFlight p = 1)
  ∧ (submitLabel (render (screen p)) = "Save Book" ↔ submitsInFlight p = 0).
Proof.
  intros Hreach. destruct (reachable_submitGuard p Hreach) as [Hcount _].
  cbn. rewrite Hcount.
  destruct (isLoading (screen p)); repeat split; intros; congruence.
Qed.

Lemma saving_label_iff_submit_in_flight_witness :
  submitLabel (render (screen mount)) = "Save Book" ↔ submitsInFlight mount = 0.
Proof.
  apply (saving_label_iff_submit_in_flight mount). constructor.
Defined.

(** ** The requests of the page *)

Lemma fetchBooks_requests_rest : requests_satisfy restRequest fetchBooks.
Proof.
  cbn. split; [split; reflexivity |].
  intros [reason | [[] [reason | data]]]; exact I.
Qed.

Lemma handler_requests_rest e s : requests_satisfy restRequest (handler e s).
Proof.
  destruct e; cbn; try exact I.
  - destruct confirmed; cbn; [| exact I].
    split; [split; [eexists; reflexivity | reflexivity] |].
    intros [reason | [[] json]]; cbn; try exact I.
    split; [split; reflexivity |].
    intros [reason | [[] [reason | data]]]; exact I.
  - destruct files; exact I.
  - split.
    + unfold restRequest. cbn.
      destruct (editingBook s) as [b |]; cbn;
        (split; [first [eexists; reflexivity | reflexivity] |]);
        eexists; (split; [reflexivity |]);
        destruct (BookFormData.cover (formData s)); cbn; auto.
    + intros [reason | [[] json]]; cbn; try exact I.
      split; [split; reflexivity |].
      intros [reason | [[] [reason | data]]]; exact I.
Qed.

Lemma settle_traffic o t p :
  requests_satisfy restRequest t →
  traffic_satisfies restRequest p →
  traffic_satisfies restRequest (settle o t p).
Proof.
  revert p. induction t as [a | m | f k IH | req k IH]; intros p Ht Hp; cbn.
  - exact Hp.
  - exact Hp.
  - apply IH; [exact Ht |]. exact Hp.
  - destruct Ht as [Hreq Hk]. destruct Hp as [Hsent Hsus]. split; cbn.
    + apply Forall_app. split; [exact Hsent |]. constructor; [exact Hreq |].
      constructor.
    + apply Forall_app. split; [exact Hsus |]. constructor; [exact Hk |].
      constructor.
Qed.

Lemma reachable_traffic p : reachable p → traffic_satisfies restRequest p.
Proof.
  induction 1 as [| a p p' _ IH Hstep].
  - apply settle_traffic; [apply fetchBooks_requests_rest |].
    split; constructor.
  - destruct a as [e | i r]; cbn in Hstep.
    + destruct (enabled e (screen p)); [| discriminate].
      injection Hstep as <-.
      apply settle_traffic; [apply handler_requests_rest | exact IH].
    + destruct (suspended p !! i) as [t |] eqn:Hi; [| discriminate].
      injection Hstep as <-. destruct IH as [Hsent Hsus].
      apply settle_traffic.
      * rewrite Forall_lookup in Hsus. exact (Hsus i t Hi r).
      * split; [exact Hsent |]. cbn. apply Forall_delete, Hsus.
Qed.

(** X11. Every request the page ever sends, under any sequence of events and
    answers, has one of four shapes: GET on the collection URL without a
    body; POST on the collection URL with a multipart body; PUT on the
    collection URL followed by a slash and an identifier, with a multipart
    body; DELETE on such a URL without a body.  A multipart body has the
    fields title, author, description, in that order, optionally followed by
    cover.  The first request is the list load of the mount effect. *)
Theorem page_speaks_rest (p : Page) :
  reachable p →
  Forall restRequest (sent p)
  ∧ head (sent p) = Some loadRequest.
Proof.
  intros Hreach. split; [apply reachable_traffic, Hreach |].
  induction Hreach as [| a p p' _ IH Hstep]; [reflexivity |].
  assert (Hgrow : ∀ o t q, head (sent q) = Some loadRequest →
                           head (sent (settle o t q)) = Some loadRequest).
  { intros o t. induction t as [x | m | f k IHk | req k IHk]; intros q Hq; cbn.
    - exact Hq.
    - exact Hq.
    - apply IHk. exact Hq.
    - destruct (sent q); [discriminate | exact Hq]. }
  destruct a as [e | i r]; cbn in Hstep.
  - destruct (enabled e (screen p)); [| discriminate].
    injection Hstep as <-. apply Hgrow, IH.
  - destruct (suspended p !! i) as [t |]; [| discriminate].
    injection Hstep as <-. apply Hgrow, IH.
Qed.

Lemma page_speaks_rest_witness :
  Forall restRequest (sent mount) ∧ head (sent mount) = Some loadRequest.
Proof.
  apply (page_speaks_rest mount). constructor.
Defined.

(** ** Answers that arrive while the dialog is in use *)

Section Background.
Variable P : (ScreenState → ScreenState) → Prop.
Hypothesis handler_after :
  ∀ e s, e ≠ SubmitForm → after_await P (handler e s).
Hypothesis fetchBooks_after : after_await P fetchBooks.

Lemma updates_after_await {A : Type} (t : Task A) :
  updates_satisfy P t → after_await P t.
Proof.
  induction t as [a | m | f k IH | req k IH]; cbn; try tauto.
Qed.

Lemma settle_background o t p :
  (o ≠ FromEvent SubmitForm → after_await P t) →
  background_satisfy P p →
  background_satisfy P (settle o t p).
Proof.
  revert p. induction t as [a | m | f k IH | req k IH]; intros p Ht Hp; cbn.
  - exact Hp.
  - exact Hp.
  - apply IH; [exact Ht | exact Hp].
  - unfold background_satisfy. cbn. apply Forall_app. split; [exact Hp |].
    constructor; [| constructor]. cbn. exact Ht.
Qed.

Lemma reachable_background p : reachable p → background_satisfy P p.
Proof.
  induction 1 as [| a p p' _ IH Hstep].
  - apply settle_background; [intros _; exact fetchBooks_after | constructor].
  - destruct a as [e | i r]; cbn in Hstep.
    + destruct (enabled e (screen p)); [| discriminate].
      injection Hstep as <-. apply settle_background; [| exact IH].
      intros He. apply handler_after. congruence.
    + destruct (suspended p !! i) as [t |] eqn:Hi; [| discriminate].
      injection Hstep as <-. apply settle_background.
      * intros Ho. apply updates_after_await.
        unfold background_satisfy in IH. rewrite Forall_lookup in IH.
        exact (IH i t Hi Ho r).
      * unfold background_satisfy. cbn. apply Forall_delete, IH.
Qed.
End Background.

Lemma fetchBooks_after_frames_dialog : after_await frames_dialog fetchBooks.
Proof. cbn. each_answer; intros s; repeat split. Qed.

Lemma handler_after_frames_dialog e s :
  e ≠ SubmitForm → after_await frames_dialog (handler e s).
Proof.
  intros He.
  destruct e; try congruence; cbn;
    try destruct confirmed; try destruct files; cbn;
    each_answer; intros s'; repeat split.
Qed.

Lemma settle_frames_dialog o t p :
  updates_satisfy frames_dialog t →
  isModalOpen (screen (settle o t p)) = isModalOpen (screen p)
  ∧ isLoading (screen (settle o t p)) = isLoading (screen p)
  ∧ editingBook (screen (settle o t p)) = editingBook (screen p)
  ∧ formData (screen (settle o t p)) = formData (screen p).
Proof.
  revert p. induction t as [a | m | f k IH | req k IH]; intros p Ht; cbn;
    try (repeat split; fail).
  destruct Ht as [Hf Hk].
  destruct (IH (mkPage (f (screen p)) (suspended p) (sent p)) Hk)
    as (H1 & H2 & H3 & H4).
  destruct (Hf (screen p)) as (F1 & F2 & F3 & F4). cbn in H1, H2, H3, H4.
  rewrite H1, H2, H3, H4. auto.
Qed.

(** X12. An answer to a request that was not started by a submission, that
    is, to the list load of the mount effect, to a delete or to the reload
    after a delete, never disturbs the dialog, in any state the page can
    reach: the modal flag, the in-flight flag, the edit target and the form
    are as before, so the dialog shows the same title and the same text.  The
    open form does not follow changes of the list. *)
Theorem background_answers_leave_dialog (p : Page) (i : nat) (t : Suspended)
    (r : FetchResult) :
  reachable p →
  suspended p !! i = Some t →
  origin t ≠ FromEvent SubmitForm →
  ∃ p',
    step (Answer i r) p = Some p'
    ∧ isModalOpen (screen p') = isModalOpen (screen p)
    ∧ isLoading (screen p') = isLoading (screen p)
    ∧ editingBook (screen p') = editingBook (screen p)
    ∧ formData (screen p') = formData (screen p)
    ∧ dialogTitle (render (screen p')) = dialogTitle (render (screen p))
    ∧ titleInput (render (screen p')) = titleInput (render (screen p))
    ∧ authorInput (render (screen p')) = authorInput (render (screen p))
    ∧ descriptionInput (render (screen p'))
      = descriptionInput (render (screen p)).
Proof.
  intros Hreach Hi Ho.
  pose proof (reachable_background frames_dialog handler_after_frames_dialog
                fetchBooks_after_frames_dialog p Hreach) as Hbg.
  unfold background_satisfy in Hbg. rewrite Forall_lookup in Hbg.
  pose proof (Hbg i t Hi Ho r) as Ht.
  eexists. split; [cbn; rewrite Hi; reflexivity |].
  destruct (settle_frames_dialog (origin t) (resume t r)
              (mkPage (screen p) (delete i (suspended p)) (sent p)) Ht)
    as (H1 & H2 & H3 & H4).
  cbn [screen] in H1, H2, H3, H4.
  repeat split; try assumption;
    cbn [render dialogTitle titleInput authorInput descriptionInput];
    rewrite ?H3, ?H4; reflexivity.
Qed.

Lemma background_answers_leave_dialog_witness :
  ∃ p',
    step (Answer 0 (Rejected "offline")) mount = Some p'
    ∧ formData (screen p') = formData (screen mount).
Proof.
  pose proof (background_answers_leave_dialog mount 0 _ (Rejected "offline")
                reachable_mount eq_refl) as Hframe.
  destruct Hframe as (p' & Hstep & _ & _ & _ & Hform & _); [discriminate |].
  exists p'. split; assumption.
Defined.

(** ** A submission in flight *)

(** Answering the handler that was suspended last. *)
Lemma step_answer_newest (s : ScreenState) (l : list Suspended)
    (t : Suspended) (snt : list Request) (r : FetchResult) :
  step (Answer (length l) r) (mkPage s (l ++ [t]) snt)
  = Some (settle (origin t) (resume t r) (mkPage s l snt)).
Proof.
  cbn [step suspended screen sent].
  rewrite (list_lookup_middle l [] t (length l) eq_refl).
  rewrite delete_middle, app_nil_r. reflexivity.
Qed.

Lemma step_submit (p : Page) :
  isLoading (screen p) = false →
  step (User SubmitForm) p
  = Some (settle (FromEvent SubmitForm) (handleSubmit (screen p)) p).
Proof. intros Hclear. cbn. rewrite Hclear. reflexivity. Qed.

Lemma step_input (name value : string) (p : Page) :
  step (User (InputChange name value)) p
  = Some (mkPage (setFormData (with_field name value (formData (screen p)))
                              (screen p))
                 (suspended p) (sent p)).
Proof. reflexivity. Qed.

Lemma step_cancel (p : Page) :
  step (User ClickCancel) p
  = Some (mkPage (setError None
                    (setEditingBook None
                       (setFormData emptyForm
                          (setIsModalOpen false (screen p)))))
                 (suspended p) (sent p)).
Proof. reflexivity. Qed.

(** A page that offers the submission has its dialog open and no submission
    in flight. *)
Lemma offered_submit (s : ScreenState) :
  offered SubmitForm s = true →
  isModalOpen s = true ∧ isLoading s = false.
Proof.
  cbn. intros H. repeat (apply andb_true_iff in H as [H ?]).
  split; [exact H |]. apply negb_true_iff. assumption.
Qed.

Lemma step_offered_submit (p : Page) :
  offered SubmitForm (screen p) = true →
  step_offered (User SubmitForm) p
  = Some (settle (FromEvent SubmitForm) (handleSubmit (screen p)) p).
Proof.
  intros Hoff. unfold step_offered. rewrite Hoff.
  apply step_submit. apply (offered_submit _ Hoff).
Qed.

Lemma step_offered_cancel (p : Page) :
  isModalOpen (screen p) = true →
  step_offered (User ClickCancel) p = step (User ClickCancel) p.
Proof. intros Hopen. cbn. rewrite Hopen. reflexivity. Qed.

(** X13. What is typed into one of the three inputs while a save is in
    flight, on a page whose rendered form could be submitted: the request was
    built from the form as it was when the submission started, so it carries
    the old values and not the later input.  If the save succeeds, the reset
    clears the form and the input typed meanwhile is gone; if it fails,
    because the request is rejected or because the response is not [ok], that
    input is still in the form next to the save error, with the dialog
    open. *)
Theorem typing_while_saving (p : Page) (name value : string) :
  offered SubmitForm (screen p) = true →
  name ∈ formInputs →
  let n := length (suspended p) in
  let sent_form :=
    Some ([("title", Text (titleInput (render (screen p))));
           ("author", Text (authorInput (render (screen p))));
           ("description", Text (descriptionInput (render (screen p))))]
          ++ match BookFormData.cover (formData (screen p)) with
             | Some file => [("cover", Blob file)]
             | None => []
             end)%list in
  (∀ json r, ∃ p' save,
     run_offered [User SubmitForm; User (InputChange name value);
                  Answer n (Resolved (mkResponse true json)); Answer n r] p
     = Some p'
     ∧ formData (screen p') = emptyForm
     ∧ editingBook (screen p') = None
     ∧ isModalOpen (screen p') = false
     ∧ isLoading (screen p') = false
     ∧ suspended p' = suspended p
     ∧ sent p' = (sent p ++ [save; loadRequest])%list
     ∧ body save = sent_form)
  ∧ (∀ r,
       (∃ reason, r = Rejected reason)
       ∨ (∃ json, r = Resolved (mkResponse false json)) →
       ∃ p' save,
         run_offered [User SubmitForm; User (InputChange name value);
                      Answer n r] p = Some p'
         ∧ formData (screen p') = with_field name value (formData (screen p))
         ∧ error (screen p') = Some "Failed to save book"
         ∧ isModalOpen (screen p') = true
         ∧ isLoading (screen p') = false
         ∧ suspended p' = suspended p
         ∧ sent p' = (sent p ++ [save])%list
         ∧ body save = sent_form).
Proof.
  intros Hoff Hname n sent_form. subst n sent_form.
  destruct (offered_submit _ Hoff) as [Hopen Hclear]. split.
  - intros json r. cbn [run_offered].
    rewrite (step_offered_submit p Hoff). cbn -[step step_offered].
    rewrite step_offered_input by (cbn; assumption).
    cbn -[step]. rewrite step_answer_newest. cbn -[step].
    rewrite <- app_assoc. rewrite step_answer_newest.
    destruct r as [reason | [[] [reason | data]]]; cbn;
      eexists _, _; (split; [reflexivity |]); cbn;
      rewrite <- ?app_assoc; repeat split;
      destruct (BookFormData.cover (formData (screen p))); reflexivity.
  - intros r Hr. cbn [run_offered].
    rewrite (step_offered_submit p Hoff). cbn -[step step_offered].
    rewrite step_offered_input by (cbn; assumption).
    cbn -[step]. rewrite step_answer_newest.
    destruct Hr as [[reason ->] | [json ->]]; cbn;
      eexists _, _; (split; [reflexivity |]); cbn;
      repeat split; try assumption;
      destruct (BookFormData.cover (formData (screen p))); reflexivity.
Qed.

Lemma typing_while_saving_witness :
  let p :=
    default mount
      (run_offered [Answer 0 (Resolved (mkResponse true (Parsed [])));
                    User ClickAddNewBook;
                    User (InputChange "title" "Dune");
                    User (InputChange "author" "Herbert");
                    User (InputChange "description" "...")] mount) in
  ∃ p' save,
    run_offered [User SubmitForm; User (InputChange "title" "Dune Messiah");
                 Answer 0 (Resolved (mkResponse false (Malformed "")))] p
    = Some p'
    ∧ titleInput (render (screen p')) = "Dune Messiah"
    ∧ alert (render (screen p')) = Some "Failed to save book"
    ∧ sent p' = [loadRequest; save]
    ∧ body save = Some [("title", Text "Dune"); ("author", Text "Herbert");
                        ("description", Text "...")].
Proof.
  intros p.
  assert (Hoff : offered SubmitForm (screen p) = true) by reflexivity.
  assert (Hname : "title" ∈ formInputs) by (unfold formInputs; constructor).
  destruct (typing_while_saving p "title" "Dune Messiah" Hoff Hname)
    as [_ Hfail].
  destruct (Hfail (Resolved (mkResponse false (Malformed ""))))
    as (p' & save & Hrun & Hform & Herr & _ & _ & _ & Hsent & Hbody).
  - right. exists (Malformed ""). reflexivity.
  - exists p', save. split; [exact Hrun |].
    split; [cbn; rewrite Hform; reflexivity |].
    repeat split; assumption.
Defined.

(** X14. Cancel does not abort a save in flight.  On a page whose rendered
    form could be submitted, after the submission and Cancel the dialog is
    closed and the form reset, but the in-flight flag stays set, the submit
    button stays disabled and the handler is still waiting.  When the save
    then fails, because the request is rejected or because the response is
    not [ok], the save error appears although the dialog is closed; when it
    succeeds, the list reload is sent.  The button is enabled again only once
    the handler has finished. *)
Theorem cancel_does_not_abort_save (p : Page) :
  offered SubmitForm (screen p) = true →
  let n := length (suspended p) in
  (∃ p1,
     run_offered [User SubmitForm; User ClickCancel] p = Some p1
     ∧ dialogOpen (render (screen p1)) = false
     ∧ formData (screen p1) = emptyForm
     ∧ submitDisabled (render (screen p1)) = true
     ∧ step (User SubmitForm) p1 = None
     ∧ length (suspended p1) = S n)
  ∧ (∀ r,
       (∃ reason, r = Rejected reason)
       ∨ (∃ json, r = Resolved (mkResponse false json)) →
       ∃ p',
         run_offered [User SubmitForm; User ClickCancel; Answer n r] p
         = Some p'
         ∧ alert (render (screen p')) = Some "Failed to save book"
         ∧ dialogOpen (render (screen p')) = false
         ∧ formData (screen p') = emptyForm
         ∧ submitDisabled (render (screen p')) = false
         ∧ suspended p' = suspended p)
  ∧ (∀ json, ∃ p',
       run_offered [User SubmitForm; User ClickCancel;
                    Answer n (Resolved (mkResponse true json))] p = Some p'
       ∧ last (sent p') = Some loadRequest
       ∧ submitDisabled (render (screen p')) = true
       ∧ length (suspended p') = S n).
Proof.
  intros Hoff n. subst n.
  destruct (offered_submit _ Hoff) as [Hopen Hclear].
  split; [| split].
  - cbn [run_offered]. rewrite (step_offered_submit p Hoff).
    cbn -[step step_offered].
    rewrite step_offered_cancel by (cbn; assumption).
    rewrite step_cancel. cbn.
    eexists. split; [reflexivity |]. cbn.
    rewrite length_app. cbn. repeat split. lia.
  - intros r Hr. cbn [run_offered]. rewrite (step_offered_submit p Hoff).
    cbn -[step step_offered].
    rewrite step_offered_cancel by (cbn; assumption).
    rewrite step_cancel. cbn -[step].
    rewrite step_answer_newest.
    destruct Hr as [[reason ->] | [json ->]]; cbn; eexists; repeat split.
  - intros json. cbn [run_offered]. rewrite (step_offered_submit p Hoff).
    cbn -[step step_offered].
    rewrite step_offered_cancel by (cbn; assumption).
    rewrite step_cancel. cbn -[step].
    rewrite step_answer_newest. cbn.
    eexists. split; [reflexivity |]. cbn.
    rewrite last_snoc, length_app. cbn. repeat split. lia.
Qed.

Lemma cancel_does_not_abort_save_witness :
  let p :=
    default mount
      (run_offered [Answer 0 (Resolved (mkResponse true (Parsed [])));
                    User ClickAddNewBook;
                    User (InputChange "title" "Dune");
                    User (InputChange "author" "Herbert");
                    User (InputChange "description" "...")] mount) in
  ∃ p',
    run_offered [User SubmitForm; User ClickCancel;
                 Answer 0 (Resolved (mkResponse false (Malformed "")))] p
    = Some p'
    ∧ alert (render (screen p')) = Some "Failed to save book"
    ∧ dialogOpen (render (screen p')) = false.
Proof.
  intros p.
  assert (Hoff : offered SubmitForm (screen p) = true) by reflexivity.
  destruct (cancel_does_not_abort_save p Hoff) as (_ & Hfail & _).
  destruct (Hfail (Resolved (mkResponse false (Malformed ""))))
    as (p' & Hrun & Halert & Hclosed & _).
  - right. exists (Malformed ""). reflexivity.
  - exists p'. repeat split; assumption.
Defined.

(** ** Answers out of order *)

Lemma step_offered_delete (bookId : string) (p : Page) :
  bookId ∈ Book._id <$> books (screen p) →
  step_offered (User (ClickDelete bookId true)) p
  = step (User (ClickDelete bookId true)) p.
Proof.
  intros Hin. cbn -[step]. rewrite (bool_decide_eq_true_2 _ Hin). reflexivity.
Qed.

(** X15. Loads are not ordered.  With the list loaded, two deletes are
    confirmed on cards of the grid, one after the other, and both succeed, so
    two reloads are in flight.  When the reload of the second delete is
    answered first, the grid shows its collection; when the answer to the
    reload of the first delete arrives afterwards, it replaces the list
    again, with the older collection, and no error is shown. *)
Theorem late_load_overwrites_reload (initial older newer : list Book.t)
    (b1 b2 : Book.t) (json1 json2 : Json) :
  b1 ∈ initial →
  b2 ∈ initial →
  ∃ p1 p2,
    run_offered [Answer 0 (Resolved (mkResponse true (Parsed initial)));
                 User (ClickDelete (Book._id b1) true);
                 User (ClickDelete (Book._id b2) true);
                 Answer 0 (Resolved (mkResponse true json1));
                 Answer 0 (Resolved (mkResponse true json2));
                 Answer 1 (Resolved (mkResponse true (Parsed newer)))] mount
    = Some p1
    ∧ books (screen p1) = newer
    ∧ run_offered [Answer 0 (Resolved (mkResponse true (Parsed older)))] p1
      = Some p2
    ∧ books (screen p2) = older
    ∧ map key (cards (render (screen p2))) = map Book._id older
    ∧ alert (render (screen p2)) = None
    ∧ suspended p2 = []
    ∧ map (λ r, (method r, url r)) (sent p2)
      = [(GET, API_URL ++ "/books");
         (DELETE, API_URL ++ "/books/" ++ Book._id b1);
         (DELETE, API_URL ++ "/books/" ++ Book._id b2);
         (GET, API_URL ++ "/books");
         (GET, API_URL ++ "/books")].
Proof.
  intros Hb1 Hb2.
  apply (list_elem_of_fmap_2 Book._id) in Hb1, Hb2.
  cbn [run_offered].
  change (step_offered
            (Answer 0 (Resolved (mkResponse true (Parsed initial)))) mount)
    with (Some (mkPage (setBooks initial initialState) [] [loadRequest])).
  cbv iota beta.
  rewrite step_offered_delete by exact Hb1. cbn -[step_offered].
  rewrite step_offered_delete by exact Hb2. cbn.
  eexists _, _. split; [reflexivity |]. split; [reflexivity |].
  split; [reflexivity |]. cbn. rewrite map_map. repeat split.
Qed.

Lemma late_load_overwrites_reload_witness :
  ∃ p1 p2,
    run_offered [Answer 0 (Resolved (mkResponse true (Parsed [dune; dune])));
                 User (ClickDelete "1" true);
                 User (ClickDelete "1" true);
                 Answer 0 (Resolved (mkResponse true (Malformed "")));
                 Answer 0 (Resolved (mkResponse true (Malformed "")));
                 Answer 1 (Resolved (mkResponse true (Parsed [])))] mount
    = Some p1
    ∧ books (screen p1) = []
    ∧ run_offered [Answer 0 (Resolved (mkResponse true (Parsed [dune])))] p1
      = Some p2
    ∧ books (screen p2) = [dune].
Proof.
  destruct (late_load_overwrites_reload [dune; dune] [dune] [] dune dune
              (Malformed "") (Malformed ""))
    as (p1 & p2 & Hrun1 & Hnew & Hrun2 & Hold & _).
  - constructor.
  - constructor.
  - exists p1, p2. repeat split; assumption.
Defined.

(** ** Back to create mode, and the life of an error message *)

(** X16. After Cancel, and after a submission whose save succeeded, the
    Add New Book button opens an empty create dialog, whatever the state was
    before: the dialog is titled Add New Book, the three inputs are empty, no
    file is pending, no error is shown, and submitting from there sends a
    POST to the collection. *)
Theorem startCreate_after_reset (s : ScreenState) (json : Json)
    (r : FetchResult) (script : list FetchResult) :
  let empty_create_dialog (s' : ScreenState) :=
    dialogOpen (render s') = true
    ∧ dialogTitle (render s') = "Add New Book"
    ∧ titleInput (render s') = ""
    ∧ authorInput (render s') = ""
    ∧ descriptionInput (render s') = ""
    ∧ BookFormData.cover (formData s') = None
    ∧ alert (render s') = None
    ∧ ∃ save,
        head (requests (exec (handleSubmit s') script s')) = Some save
        ∧ method save = POST
        ∧ url save = API_URL ++ "/books"
        ∧ body save = Some [("title", Text ""); ("author", Text "");
                            ("description", Text "")] in
  let cancelled := final (exec cancel [] s) in
  let saved :=
    final (exec (handleSubmit s) [Resolved (mkResponse true json); r] s) in
  empty_create_dialog (final (exec startCreate [] cancelled))
  ∧ empty_create_dialog (final (exec startCreate [] saved)).
Proof.
  cbn zeta. split.
  - cbn. repeat split.
    destruct script as [| r' script]; eexists; repeat split.
  - destruct r as [reason | [[] [reason | data]]]; cbn; repeat split;
      destruct script as [| r' script]; eexists; repeat split.
Qed.

(** X17. An error message, once shown, is taken down only by Cancel or by a
    submission (which clears it when it starts).  No other handler clears
    it: not opening or dismissing the dialog, not Edit, not typing, not an
    image error, and not a delete or a list load that succeeds after an
    earlier failure. *)
Theorem error_cleared_only_by_cancel_or_submit (e : Event) (s : ScreenState)
    (script : list FetchResult) (m : string) :
  error s = Some m →
  error (final (exec (handler e s) script s)) = None →
  e = ClickCancel ∨ e = SubmitForm.
Proof.
  intros Hm Hnone.
  destruct e; cbn in Hnone; try congruence; auto.
  - destruct confirmed; cbn in Hnone; [| congruence].
    destruct script as [| [reason | [[] json]] script];
      cbn in Hnone; try congruence.
    destruct script as [| [reason | [[] [reason | data]]] script];
      cbn in Hnone; congruence.
  - destruct files; cbn in Hnone; congruence.
Qed.

Lemma error_cleared_only_by_cancel_or_submit_witness :
  ClickCancel = ClickCancel ∨ ClickCancel = SubmitForm.
Proof.
  apply (error_cleared_only_by_cancel_or_submit ClickCancel
           (setError (Some "Failed to load books") initialState) []
           "Failed to load books");
    reflexivity.
Defined.
